(** * download.py: orchestration of the Copernicus Marine command-line client

    A shallow embedding of [src/download.py] and the properties of its three
    functions [dataset_has_depth], [download_copernicus] and [run].

    The script is effectful Python: it reads the process environment, creates
    directories, spawns the external tool, writes log records and raises or
    catches exceptions.  It is modelled in a state-and-exception monad over a
    [World] that holds the environment, the directories of the filesystem and
    the chronological trace of the calls made to the outside.  What the
    outside answers (the exit of a child process, the refusal of the
    operating system to create a directory) is a parameter. *)

From Stdlib Require Import ZArith String Ascii List Floats.
From Stdlib Require Import DecimalString DecimalPos DecimalZ.
From stdpp Require Import gmap strings list fin_maps.

Set Warnings "-register-all".

Open Scope string_scope.
Open Scope list_scope.

(** ** The Python runtime the script relies on *)

Module Py.

(** Exceptions that occur in the script.  Every one of them is a subclass
    of Python's [Exception], so a clause [except Exception] catches all of
    them; [except subprocess.CalledProcessError] catches the second only. *)
Inductive exn : Type :=
| KeyError (key : string)
| CalledProcessError (returncode : Z) (cmd : list string)
| OSError (msg : string)
| JSONDecodeError (doc : string)
| AttributeError (msg : string)
| TypeError (msg : string)
| Exception (msg : string).

Inductive result (A : Type) : Type :=
| Ok (a : A)
| Raise (e : exn).
Arguments Ok {A} a.
Arguments Raise {A} e.

Inductive level : Type := INFO | ERROR.

(** Calls that leave the process, in the order they are made. *)
Inductive event : Type :=
| EvLog (lvl : level) (msg : string)
| EvMakedirs (path : string)
| EvRun (cmd : list string).

Record World : Type := mkWorld {
  environ : gmap string string;
  dirs : gset string;
  trace : list event
}.

Definition emit (e : event) (w : World) : World :=
  {| environ := environ w; dirs := dirs w; trace := trace w ++ [e] |}.

(** What became of a spawned child process: it ran and exited with a
    status (and wrote [stdout]), or it could not be run at all. *)
Inductive proc_outcome : Type :=
| Exited (returncode : Z) (stdout : string)
| SpawnError (e : exn).

Record CompletedProcess : Type := mkCompleted {
  cp_returncode : Z;
  cp_stdout : string
}.

(** Values produced by [json.loads]. *)
Inductive pyjson : Type :=
| PyNone
| PyBool (b : bool)
| PyInt (z : Z)
| PyFloat (f : float)
| PyStr (s : string)
| PyList (l : list pyjson)
| PyDict (d : gmap string pyjson).

(** The monad: a computation takes the world and gives a value or an
    exception, and the world it leaves behind. *)
Definition M (A : Type) : Type := World → result A * World.

Definition ret {A} (a : A) : M A := λ w, (Ok a, w).

Definition raise {A} (e : exn) : M A := λ w, (Raise e, w).

Definition bind {A B} (c : M A) (k : A → M B) : M B :=
  λ w, match c w with
       | (Ok a, w') => k a w'
       | (Raise e, w') => (Raise e, w')
       end.

(** [try: body except Exception as e: handler e]; the effects of [body] up
    to the exception stay. *)
Definition try_except {A} (body : M A) (handler : exn → M A) : M A :=
  λ w, match body w with
       | (Ok a, w') => (Ok a, w')
       | (Raise e, w') => handler e w'
       end.

Declare Scope py_scope.
Delimit Scope py_scope with py.
Notation "'let!' x ':=' c 'in' k" := (bind c (λ x, k))
  (at level 10, x name, c at level 100, k at level 200) : py_scope.
Notation "c '>>' k" := (bind c (λ _, k))
  (at level 100, k at level 200, right associativity) : py_scope.

(** A [for] loop whose body may execute [return v]: the body gives
    [Some v] to return [v] from the enclosing function and [None] to go on
    with the next element; [after] is the code that follows the loop. *)
Fixpoint for_return {A R} (xs : list A) (body : A → M (option R))
    (after : M R) : M R :=
  match xs with
  | [] => after
  | x :: rest =>
      bind (body x) (λ r,
        match r with
        | Some v => ret v
        | None => for_return rest body after
        end)
  end.

(** A [for] loop whose body only falls through or raises. *)
Fixpoint for_each {A} (xs : list A) (body : A → M unit) : M unit :=
  match xs with
  | [] => ret tt
  | x :: rest => bind (body x) (λ _, for_each rest body)
  end.

(** [d[key]] on a dict. *)
Definition dict_getitem {V} (d : gmap string V) (key : string) : M V :=
  match d !! key with
  | Some v => ret v
  | None => raise (KeyError key)
  end.

(** [key in os.environ] and [os.environ[key]]. *)
Definition environ_contains (key : string) : M bool :=
  λ w, (Ok (bool_decide (is_Some (environ w !! key))), w).

Definition environ_getitem (key : string) : M string :=
  λ w, match environ w !! key with
       | Some v => (Ok v, w)
       | None => (Raise (KeyError key), w)
       end.

Definition logging_info (msg : string) : M unit :=
  λ w, (Ok tt, emit (EvLog INFO msg) w).

Definition logging_error (msg : string) : M unit :=
  λ w, (Ok tt, emit (EvLog ERROR msg) w).

(** [str(n)] and [f"{n}"] for an [int]. *)
Definition str_int (n : Z) : string := NilZero.string_of_int (Z.to_int n).

Definition starts_with_sep (p : string) : bool :=
  match p with
  | String c _ => bool_decide (c = "/"%char)
  | EmptyString => false
  end.

Fixpoint ends_with_sep (p : string) : bool :=
  match p with
  | EmptyString => false
  | String c EmptyString => bool_decide (c = "/"%char)
  | String _ rest => ends_with_sep rest
  end.

(** [os.path.join(a, b)] of [posixpath]. *)
Definition os_path_join (a b : string) : string :=
  if starts_with_sep b then b
  else if bool_decide (a = "") || ends_with_sep a then a +:+ b
  else a +:+ "/" +:+ b.

(** The directories [os.makedirs(p)] makes sure of: every proper ancestor
    of [p], outermost first, and [p] itself.  [acc] is the part of the
    path already read. *)
Fixpoint path_chain (acc p : string) : list string :=
  match p with
  | EmptyString =>
      if bool_decide (acc = "") || ends_with_sep acc then [] else [acc]
  | String c rest =>
      if bool_decide (c = "/"%char)
      then (if bool_decide (acc = "") || ends_with_sep acc then [] else [acc])
             ++ path_chain (acc +:+ "/") rest
      else path_chain (acc +:+ String c "") rest
  end.

(** [x in s] for strings: [x] occurs in [s]. *)
Fixpoint str_contains (x s : string) : bool :=
  String.prefix x s ||
  match s with
  | EmptyString => false
  | String _ rest => str_contains x rest
  end.

(** [metadata.get(key, default)]: only a dict has the method. *)
Definition py_get (o : pyjson) (key : string) (default : pyjson) : M pyjson :=
  match o with
  | PyDict d => ret (match d !! key with Some v => v | None => default end)
  | _ => raise (AttributeError "object has no attribute 'get'")
  end.

(** [key in o] for a string [key]: a key of a dict, an element of a list,
    a substring of a string; other values are not containers. *)
Definition py_contains (key : string) (o : pyjson) : M bool :=
  match o with
  | PyDict d => ret (bool_decide (is_Some (d !! key)))
  | PyList l =>
      ret (existsb (λ v, match v with
                         | PyStr s => bool_decide (s = key)
                         | _ => false
                         end) l)
  | PyStr s => ret (str_contains key s)
  | _ => raise (TypeError "argument is not iterable")
  end.

End Py.

Import Py.
Open Scope py_scope.

(** ** Sample oracles and worlds

    Concrete stand-ins for the library functions and for the external tool,
    on which the statements below are exercised. *)

Module Sample.

Definition str_float (f : float) : string :=
  if PrimFloat.eqb f 24.0 then "24.0"
  else if PrimFloat.eqb f 31.0 then "31.0"
  else if PrimFloat.eqb f (-92.0) then "-92.0"
  else if PrimFloat.eqb f (-86.0) then "-86.0"
  else "nan".

Definition str_exc (e : exn) : string :=
  match e with
  | KeyError key => key
  | CalledProcessError rc _ =>
      "Command returned non-zero exit status " +:+ str_int rc
  | OSError msg | JSONDecodeError msg | AttributeError msg
  | TypeError msg | Exception msg => msg
  end.

(** A parser that knows three documents (written with single quotes). *)
Definition json_parse (doc : string) : option pyjson :=
  if bool_decide (doc = "{'dimensions': {'depth': 1, 'time': 2}}")
  then Some (PyDict {[ "dimensions" :=
                         PyDict (<["depth" := PyInt 1]> {[ "time" := PyInt 2 ]}) ]})
  else if bool_decide (doc = "{'dimensions': ['depth']}")
  then Some (PyDict {[ "dimensions" := PyList [PyStr "depth"] ]})
  else if bool_decide (doc = "{}")
  then Some (PyDict ∅)
  else None.

(** The tool succeeds on every command. *)
Definition spawn_ok (cmd : list string) : proc_outcome :=
  Exited 0 "{'dimensions': {'depth': 1, 'time': 2}}".

(** The tool fails on the biogeochemistry dataset with exit status 1. *)
Definition spawn_bgc_fails (cmd : list string) : proc_outcome :=
  if bool_decide ("--dataset-id=cmems_mod_glo_bgc_my_0.25deg_P1D-m" ∈ cmd)
  then Exited 1 ""
  else Exited 0 "".

(** The operating system creates every directory it is asked for. *)
Definition mkdir_ok (path : string) : option exn := None.

(** The working directory is read-only: [data] cannot be created. *)
Definition mkdir_data_denied (path : string) : option exn :=
  if bool_decide (path = "data")
  then Some (OSError "Permission denied: 'data'")
  else None.

(** The tool is not installed. *)
Definition spawn_missing (cmd : list string) : proc_outcome :=
  SpawnError (OSError "No such file or directory: 'copernicusmarine'").

(** The tool answers with a text that is not JSON. *)
Definition spawn_garbage (cmd : list string) : proc_outcome :=
  Exited 0 "<html>".

(** The tool answers with a list where the mapping is expected. *)
Definition spawn_list (cmd : list string) : proc_outcome :=
  Exited 0 "{'dimensions': ['depth']}".

Definition credentials : gmap string string :=
  <["CMEMS_USERNAME" := "alice"]> (<["CMEMS_PASSWORD" := "secret"]> ∅).

Definition world : World := mkWorld credentials ∅ [].

Definition world_no_password : World :=
  mkWorld {[ "CMEMS_USERNAME" := "alice" ]} ∅ [].

Definition box_no_lon_max : gmap string float :=
  <["lat_min" := 24.0%float]>
    (<["lat_max" := 31.0%float]> {[ "lon_min" := (-92.0)%float ]}).

(** The boundary box of [run] with a fifth key. *)
Definition box_with_fifth_key : gmap string float :=
  <["depth_min" := 0.5%float]>
    (<["lat_min" := 24.0%float]>
       (<["lat_max" := 31.0%float]>
          (<["lon_min" := (-92.0)%float]> {[ "lon_max" := (-86.0)%float ]}))).

End Sample.

(** ** The script *)

Section Download.

(** Library code and the world outside the repository, taken as given:
    [str] on a float and on an exception object, the JSON parser ([None]
    when the text is not JSON), the outcome of spawning a child process
    with a given argument list (in the environment of the script, which
    the script never changes), and the answer of the operating system when
    asked to create a directory that is not there: [None] when it creates
    it, the [OSError] it raises otherwise (a regular file in the way, no
    permission). *)
Context (str_float : float → string)
        (str_exc : exn → string)
        (json_parse : string → option pyjson)
        (spawn : list string → proc_outcome)
        (mkdir_refused : string → option exn).

#[local] Set Default Proof Using "Type".

(** [subprocess.run(cmd, check=True)]: the call is recorded when it is
    made; a non-zero exit status raises [CalledProcessError]. *)
Definition subprocess_run (cmd : list string) : M CompletedProcess :=
  λ w,
    let w' := emit (EvRun cmd) w in
    match spawn cmd with
    | SpawnError e => (Raise e, w')
    | Exited rc out =>
        if (rc =? 0)%Z then (Ok (mkCompleted rc out), w')
        else (Raise (CalledProcessError rc cmd), w')
    end.

(** Making sure of the directories [ps], outermost first, in the
    filesystem [ds]: a directory that is there is kept, a missing one is
    created unless the operating system refuses, which ends the walk with
    its error and keeps what was created before. *)
Fixpoint make_chain (ps : list string) (ds : gset string)
    : option exn * gset string :=
  match ps with
  | [] => (None, ds)
  | p :: rest =>
      if bool_decide (p ∈ ds) then make_chain rest ds
      else match mkdir_refused p with
           | Some e => (Some e, ds)
           | None => make_chain rest (ds ∪ {[p]})
           end
  end.

(** [os.makedirs(path, exist_ok=True)]: the call is recorded when it is
    made; the directories on the way to [path] and [path] itself are made
    sure of, and the error of a refusal is raised. *)
Definition os_makedirs (path : string) : M unit :=
  λ w,
    let '(refusal, ds) := make_chain (path_chain "" path) (dirs w) in
    (match refusal with
     | None => Ok tt
     | Some e => Raise e
     end,
     {| environ := environ w;
        dirs := ds;
        trace := trace w ++ [EvMakedirs path] |}).

Definition json_loads (doc : string) : M pyjson :=
  match json_parse doc with
  | Some v => ret v
  | None => raise (JSONDecodeError doc)
  end.

Definition describe_cmd (dataset_id : string) : list string :=
  ["copernicusmarine"; "describe"; "--dataset-id"; dataset_id].

Definition dataset_has_depth (dataset_id : string) : M bool :=
  let! result := subprocess_run (describe_cmd dataset_id) in
  let! metadata := json_loads (cp_stdout result) in
  let! dimensions := py_get metadata "dimensions" (PyDict ∅) in
  py_contains "depth" dimensions.

Definition output_directory : string := "data".

Definition dataset_ids (year : Z) : list string :=
  if (year =? 2021)%Z
  then ["cmems_mod_glo_phy_myint_0.083deg_P1D-m";
        "cmems_mod_glo_bgc_my_0.25deg_P1D-m"]
  else ["cmems_mod_glo_phy_my_0.083deg_P1D-m";
        "cmems_mod_glo_bgc_my_0.25deg_P1D-m"].

Definition start_datetime (year : Z) : string :=
  str_int year +:+ "-08-01T00:00:00".

Definition end_datetime (year : Z) : string :=
  str_int year +:+ "-10-31T23:59:59".

Definition no_depth_datasets : list string :=
  ["cmems_mod_glo_phy_anfc_0.083deg_P1D-m";
   "cmems_mod_glo_phy_my_0.083deg_P1D-m";
   "cmems_mod_glo_phy_myint_0.083deg_P1D-m";
   "cmems_mod_glo_bgc_my_0.25deg_P1D-m"].

(** The two branches that extend [cmd] with the depth range. *)
Definition depth_args (dataset_id : string) : list string :=
  if bool_decide (dataset_id = "cmems_mod_glo_bgc_my_0.25deg_P1D-m")
  then ["--minimum-depth"; "0.5057600140571594";
        "--maximum-depth"; "0.5057600140571594"]
  else ["--minimum-depth"; "0.49402499198913574";
        "--maximum-depth"; "0.49402499198913574"].

(** The values the loop body reads from the enclosing function. *)
Record bounds : Type := mkBounds {
  lat_min : float;
  lat_max : float;
  lon_min : float;
  lon_max : float
}.

(** The argument list built in the [try] block, given the two credentials
    read from the environment. *)
Definition cmd (b : bounds) (year : Z) (dataset_id username password : string)
    : list string :=
  ["copernicusmarine"; "subset";
   "--dataset-id=" +:+ dataset_id;
   "--minimum-longitude"; str_float (lon_min b);
   "--maximum-longitude"; str_float (lon_max b);
   "--minimum-latitude"; str_float (lat_min b);
   "--maximum-latitude"; str_float (lat_max b);
   "--file-format"; "netcdf";
   "--output-directory"; os_path_join output_directory dataset_id;
   "--start-datetime"; start_datetime year;
   "--end-datetime"; end_datetime year;
   "--overwrite";
   "--username"; username;
   "--password"; password]
  ++ depth_args dataset_id.

(** The body of the loop over [dataset_ids]: [Some false] stands for
    [return False], [None] for reaching the end of the body. *)
Definition download_dataset (b : bounds) (year : Z) (dataset_id : string)
    : M (option bool) :=
  logging_info ("Downloading dataset: " +:+ dataset_id) >>
  let dataset_output_dir := os_path_join output_directory dataset_id in
  os_makedirs dataset_output_dir >>
  try_except
    (let! username := environ_getitem "CMEMS_USERNAME" in
     let! password := environ_getitem "CMEMS_PASSWORD" in
     subprocess_run (cmd b year dataset_id username password) >>
     logging_info ("Successfully downloaded dataset: " +:+ dataset_id) >>
     ret None)
    (λ e,
       match e with
       | CalledProcessError _ _ =>
           logging_error ("Error downloading dataset " +:+ dataset_id
                          +:+ ": " +:+ str_exc e) >>
           ret (Some false)
       | _ =>
           logging_error ("Unexpected error downloading dataset "
                          +:+ dataset_id +:+ ": " +:+ str_exc e) >>
           ret (Some false)
       end).

Definition download_copernicus (boundary_box : gmap string float) (year : Z)
    : M bool :=
  let! lat_min := dict_getitem boundary_box "lat_min" in
  let! lat_max := dict_getitem boundary_box "lat_max" in
  let! lon_min := dict_getitem boundary_box "lon_min" in
  let! lon_max := dict_getitem boundary_box "lon_max" in
  logging_info ("Starting Copernicus data download for " +:+ str_int year) >>
  let! has_username := environ_contains "CMEMS_USERNAME" in
  let! has_password := environ_contains "CMEMS_PASSWORD" in
  if negb has_username || negb has_password then
    logging_error
      "Copernicus Marine credentials not found in environment variables" >>
    ret false
  else
    for_return (dataset_ids year)
      (download_dataset (mkBounds lat_min lat_max lon_min lon_max) year)
      (logging_info "Completed all Copernicus data downloads" >> ret true).

Definition boundary_box : gmap string float :=
  <["lat_min" := 24.0%float]>
    (<["lat_max" := 31.0%float]>
       (<["lon_min" := (-92.0)%float]>
          (<["lon_max" := (-86.0)%float]> ∅))).

Definition years : list Z := [2005; 2006; 2012; 2013; 2015; 2021]%Z.

(** The body of the loop of [run]. *)
Definition run_year (year : Z) : M unit :=
  let! success := download_copernicus boundary_box year in
  if negb success
  then raise (Exception ("Failed to download Copernicus data for "
                         +:+ str_int year))
  else ret tt.

Definition run : M unit :=
  logging_info "Starting Copernicus data download module" >>
  for_each years run_year >>
  logging_info "Completed Copernicus data download module".

(** ** Observations on a world *)

(** The argument lists handed to [subprocess.run] so far, oldest first:
    what a spy on [subprocess.run] records. *)
Definition invocations (w : World) : list (list string) :=
  omap (λ e, match e with EvRun c => Some c | _ => None end) (trace w).

(** The paths handed to [os.makedirs] so far, oldest first. *)
Definition makedirs_calls (w : World) : list string :=
  omap (λ e, match e with EvMakedirs p => Some p | _ => None end) (trace w).

(** The operating system does not stand in the way of the directories
    [ps]: each is there already or can be created. *)
Definition creatable (w : World) (ps : list string) : Prop :=
  ∀ p, p ∈ ps → p ∈ dirs w ∨ mkdir_refused p = None.

(** The trace without its log records. *)
Definition is_effect (e : event) : bool :=
  match e with
  | EvLog _ _ => false
  | _ => true
  end.

Definition effects (w : World) : list event :=
  List.filter is_effect (trace w).

Definition exits_zero (o : proc_outcome) : bool :=
  match o with
  | Exited rc _ => (rc =? 0)%Z
  | SpawnError _ => false
  end.

(** The datasets an iteration over [ids] gets to: each one up to and
    including the first whose command does not exit with status zero. *)
Fixpoint attempted (ok : string → bool) (ids : list string) : list string :=
  match ids with
  | [] => []
  | id :: rest => id :: (if ok id then attempted ok rest else [])
  end.

(** What one iteration does outside the process. *)
Definition dataset_effects (c : string → list string) (id : string)
    : list event :=
  [EvMakedirs (os_path_join output_directory id); EvRun (c id)].

(** The [subset] command as the description of the tool's interface words
    it, not as the code builds it: the flags in the documented order, with
    the values the rest of the specification gives them.  The statements
    below compare it with [cmd]. *)
Definition documented_subset_cmd (b : bounds) (year : Z) (u p id : string)
    : list string :=
  ["copernicusmarine"; "subset";
   "--dataset-id=" +:+ id;
   "--minimum-longitude"; str_float (lon_min b);
   "--maximum-longitude"; str_float (lon_max b);
   "--minimum-latitude"; str_float (lat_min b);
   "--maximum-latitude"; str_float (lat_max b);
   "--file-format"; "netcdf";
   "--output-directory"; "data/" +:+ id;
   "--start-datetime"; str_int year +:+ "-08-01T00:00:00";
   "--end-datetime"; str_int year +:+ "-10-31T23:59:59";
   "--overwrite";
   "--username"; u;
   "--password"; p;
   "--minimum-depth";
   (if bool_decide (id = "cmems_mod_glo_bgc_my_0.25deg_P1D-m")
    then "0.5057600140571594" else "0.49402499198913574");
   "--maximum-depth";
   (if bool_decide (id = "cmems_mod_glo_bgc_my_0.25deg_P1D-m")
    then "0.5057600140571594" else "0.49402499198913574")].

(** The dict has the four keys of a boundary box. *)
Definition is_boundary_box (d : gmap string float) (b : bounds) : Prop :=
  d !! "lat_min" = Some (lat_min b) ∧ d !! "lat_max" = Some (lat_max b) ∧
  d !! "lon_min" = Some (lon_min b) ∧ d !! "lon_max" = Some (lon_max b).

(** Both credentials are in the environment. *)
Definition has_credentials (w : World) (username password : string) : Prop :=
  environ w !! "CMEMS_USERNAME" = Some username ∧
  environ w !! "CMEMS_PASSWORD" = Some password.

(** Every year of [ys] is downloaded with success, one after the other,
    taking the world from [w] to [w']. *)
Inductive all_succeed : list Z → World → World → Prop :=
| all_succeed_nil w : all_succeed [] w w
| all_succeed_cons y ys w w1 w2 :
    download_copernicus boundary_box y w = (Ok true, w1) →
    all_succeed ys w1 w2 →
    all_succeed (y :: ys) w w2.

(** The messages logged at level [ERROR], oldest first. *)
Definition errors_of (t : list event) : list string :=
  omap (λ e, match e with EvLog ERROR m => Some m | _ => None end) t.

Definition error_logs (w : World) : list string := errors_of (trace w).

(** The message of the [ERROR] record an iteration writes when the command
    [c] of its dataset does not exit with status zero: the first handler is
    for [CalledProcessError], the second for every other exception. *)
Definition failure_message (dataset_id : string) (c : list string)
    : option string :=
  match spawn c with
  | Exited rc _ =>
      if (rc =? 0)%Z then None
      else Some ("Error downloading dataset " +:+ dataset_id +:+ ": "
                 +:+ str_exc (CalledProcessError rc c))
  | SpawnError (CalledProcessError rc' c') =>
      Some ("Error downloading dataset " +:+ dataset_id +:+ ": "
            +:+ str_exc (CalledProcessError rc' c'))
  | SpawnError e =>
      Some ("Unexpected error downloading dataset " +:+ dataset_id +:+ ": "
            +:+ str_exc e)
  end.

(** Everything one iteration leaves in the trace. *)
Definition dataset_trace (c : string → list string) (id : string)
    : list event :=
  [EvLog INFO ("Downloading dataset: " +:+ id);
   EvMakedirs (os_path_join output_directory id);
   EvRun (c id);
   match failure_message id (c id) with
   | None => EvLog INFO ("Successfully downloaded dataset: " +:+ id)
   | Some m => EvLog ERROR m
   end].

(** The years [run] gets to: each one up to and including the first whose
    call does not succeed. *)
Fixpoint attempted_years (ok : Z → bool) (ys : list Z) : list Z :=
  match ys with
  | [] => []
  | y :: rest => y :: (if ok y then attempted_years ok rest else [])
  end.

(** The values of the boundary box of [run]. *)
Definition run_bounds : bounds :=
  mkBounds 24.0%float 31.0%float (-92.0)%float (-86.0)%float.

(** Every command of the year [y] exits with status zero. *)
Definition year_succeeds (u p : string) (y : Z) : bool :=
  forallb (λ id, exits_zero (spawn (cmd run_bounds y id u p))) (dataset_ids y).

(** The downloads of a list of years, in the order [run] makes them. *)
Definition year_dataset_pairs (ys : list Z) : list (Z * string) :=
  flat_map (λ y, map (pair y) (dataset_ids y)) ys.

Definition pair_cmd (u p : string) (yi : Z * string) : list string :=
  cmd run_bounds yi.1 yi.2 u p.

(** The commands in a trace, oldest first. *)
Definition runs_of (t : list event) : list (list string) :=
  omap (λ e, match e with EvRun c => Some c | _ => None end) t.

(** The directories and the trace that the call of [run] for the year [y]
    adds, with the credentials [u] and [p] in the environment. *)
Definition year_dirs (u p : string) (y : Z) : list string :=
  flat_map (λ id, path_chain "" (os_path_join output_directory id))
    (attempted (λ id, exits_zero (spawn (cmd run_bounds y id u p)))
       (dataset_ids y)).

Definition year_trace (u p : string) (y : Z) : list event :=
  [EvLog INFO ("Starting Copernicus data download for " +:+ str_int y)]
  ++ flat_map (dataset_trace (λ id, cmd run_bounds y id u p))
       (attempted (λ id, exits_zero (spawn (cmd run_bounds y id u p)))
          (dataset_ids y))
  ++ (if year_succeeds u p y
      then [EvLog INFO "Completed all Copernicus data downloads"]
      else []).

(** The downloads [run] gets to, in order. *)
Definition reached_pairs (u p : string) (ys : list Z) : list (Z * string) :=
  flat_map
    (λ y, map (pair y)
            (attempted (λ id, exits_zero (spawn (cmd run_bounds y id u p)))
               (dataset_ids y)))
    (attempted_years (year_succeeds u p) ys).

(** The outcome of the loop of [run] over [ys]. *)
Definition years_result (u p : string) (ys : list Z) : result unit :=
  match List.find (λ y, negb (year_succeeds u p y)) ys with
  | None => Ok tt
  | Some y =>
      Raise (Exception ("Failed to download Copernicus data for "
                        +:+ str_int y))
  end.

(** The [os.makedirs] paths and the effects in a trace. *)
Definition mkdirs_of (t : list event) : list string :=
  omap (λ e, match e with EvMakedirs p => Some p | _ => None end) t.

Definition effects_of (t : list event) : list event :=
  List.filter is_effect t.

(** ** Auxiliary lemmas *)

#[local] Arguments String.append : simpl never.
#[local] Arguments cmd : simpl never.
#[local] Arguments os_path_join : simpl never.
#[local] Arguments path_chain : simpl never.

Lemma invocations_app t1 t2 e d :
  invocations (mkWorld e d (t1 ++ t2))
  = invocations (mkWorld e d t1) ++ invocations (mkWorld e d t2).
Proof. unfold invocations; simpl. apply omap_app. Qed.

Lemma effects_app t1 t2 e d :
  effects (mkWorld e d (t1 ++ t2))
  = effects (mkWorld e d t1) ++ effects (mkWorld e d t2).
Proof. unfold effects; simpl. apply List.filter_app. Qed.

Lemma exits_zero_spec o :
  exits_zero o = true ↔ ∃ out, o = Exited 0 out.
Proof.
  destruct o as [rc out|e]; simpl.
  - rewrite Z.eqb_eq. split.
    + intros ->. eauto.
    + intros [out' [= -> _]]. reflexivity.
  - split; [discriminate|]. intros [out [=]].
Qed.

Lemma attempted_all ok ids :
  (∀ id, id ∈ ids → ok id = true) → attempted ok ids = ids.
Proof.
  induction ids as [|id rest IH]; intros H; simpl; [reflexivity|].
  rewrite (H id) by apply list_elem_of_here.
  rewrite IH; [reflexivity|]. intros id' Hin. apply H, list_elem_of_further, Hin.
Qed.

Lemma attempted_first_failure ok pre id post :
  (∀ id', id' ∈ pre → ok id' = true) → ok id = false →
  attempted ok (pre ++ id :: post) = pre ++ [id].
Proof.
  induction pre as [|x pre IH]; intros Hpre Hid; simpl.
  - rewrite Hid. reflexivity.
  - rewrite (Hpre x) by apply list_elem_of_here.
    rewrite IH; [reflexivity| |exact Hid].
    intros id' Hin. apply Hpre, list_elem_of_further, Hin.
Qed.

Lemma forallb_elem_of (ok : string → bool) ids :
  forallb ok ids = true ↔ ∀ id, id ∈ ids → ok id = true.
Proof.
  rewrite forallb_forall. split; intros H id Hin; apply H;
    apply list_elem_of_In; exact Hin.
Qed.

(** A dict that lacks a key of the boundary box: the first missing key, in
    the order of the four lookups, is the one the [KeyError] names. *)
Lemma download_copernicus_first_missing d year w :
  (d !! "lat_min" = None ∨ d !! "lat_max" = None
   ∨ d !! "lon_min" = None ∨ d !! "lon_max" = None) →
  ∃ k, k ∈ ["lat_min"; "lat_max"; "lon_min"; "lon_max"] ∧ d !! k = None
       ∧ download_copernicus d year w = (Raise (KeyError k), w).
Proof.
  intros H. unfold download_copernicus, dict_getitem.
  destruct (d !! "lat_min") as [la|] eqn:Ha.
  2:{ exists "lat_min". repeat split; [|exact Ha]. apply list_elem_of_here. }
  destruct (d !! "lat_max") as [lb|] eqn:Hb.
  2:{ exists "lat_max". repeat split; [|exact Hb]. do 1 apply list_elem_of_further. apply list_elem_of_here. }
  destruct (d !! "lon_min") as [lc|] eqn:Hc.
  2:{ exists "lon_min". repeat split; [|exact Hc]. do 2 apply list_elem_of_further. apply list_elem_of_here. }
  destruct (d !! "lon_max") as [ld|] eqn:Hd.
  2:{ exists "lon_max". repeat split; [|exact Hd]. do 3 apply list_elem_of_further. apply list_elem_of_here. }
  destruct H as [H|[H|[H|H]]]; discriminate.
Qed.

Lemma download_copernicus_no_credentials d b year w :
  is_boundary_box d b →
  environ w !! "CMEMS_USERNAME" = None ∨ environ w !! "CMEMS_PASSWORD" = None →
  download_copernicus d year w
  = (Ok false,
     mkWorld (environ w) (dirs w)
       (trace w ++
        [EvLog INFO ("Starting Copernicus data download for " +:+ str_int year);
         EvLog ERROR
           "Copernicus Marine credentials not found in environment variables"])).
Proof.
  intros (Ha & Hb & Hc & Hd) Hmiss.
  unfold download_copernicus, dict_getitem.
  rewrite Ha, Hb, Hc, Hd.
  unfold bind at 1 2 3 4 5 6 7, ret at 1 2 3 4, logging_info at 1,
    environ_contains, emit. simpl.
  assert (Hor : negb (bool_decide (is_Some (environ w !! "CMEMS_USERNAME")))
                || negb (bool_decide (is_Some (environ w !! "CMEMS_PASSWORD")))
                = true).
  { destruct Hmiss as [-> | ->].
    - rewrite bool_decide_eq_false_2 by (intros [? [=]]). reflexivity.
    - rewrite (bool_decide_eq_false_2 (is_Some None)) by (intros [? [=]]).
      apply orb_true_r. }
  rewrite Hor. unfold bind, logging_error, ret, emit; simpl.
  rewrite <- app_assoc. reflexivity.
Qed.

Lemma dataset_ids_cases year id :
  id ∈ dataset_ids year →
  id = "cmems_mod_glo_phy_myint_0.083deg_P1D-m"
  ∨ id = "cmems_mod_glo_phy_my_0.083deg_P1D-m"
  ∨ id = "cmems_mod_glo_bgc_my_0.25deg_P1D-m".
Proof.
  unfold dataset_ids. destruct (year =? 2021)%Z; intros Hin;
    repeat (apply elem_of_cons in Hin as [->|Hin]; [by auto|]);
    apply elem_of_nil in Hin; contradiction.
Qed.

(** The output directory of a dataset of the script and the directories
    [os.makedirs] makes sure of for it. *)
Lemma dataset_output_dir year id :
  id ∈ dataset_ids year →
  os_path_join output_directory id = "data/" +:+ id
  ∧ path_chain "" (os_path_join output_directory id) = ["data"; "data/" +:+ id].
Proof.
  intros Hin.
  destruct (dataset_ids_cases year id Hin) as [-> | [-> | ->]];
    split; reflexivity.
Qed.

Lemma dataset_effects_ext c year ids :
  (∀ id, id ∈ ids → id ∈ dataset_ids year) →
  flat_map (dataset_effects c) ids
  = flat_map (λ id, [EvMakedirs ("data/" +:+ id); EvRun (c id)]) ids.
Proof.
  induction ids as [|id rest IH]; intros Hsub; [reflexivity|].
  change (dataset_effects c id ++ flat_map (dataset_effects c) rest
          = [EvMakedirs ("data/" +:+ id); EvRun (c id)]
            ++ flat_map (λ id, [EvMakedirs ("data/" +:+ id); EvRun (c id)]) rest).
  rewrite IH.
  2:{ intros id' Hin. apply Hsub, list_elem_of_further, Hin. }
  unfold dataset_effects.
  destruct (dataset_output_dir year id) as [-> _]; [|reflexivity].
  apply Hsub, list_elem_of_here.
Qed.

(** [str_int] writes the decimal numeral of its argument: reading the
    string back gives the number. *)
Lemma str_int_reads_back n :
  option_map Z.of_int (NilZero.int_of_string (str_int n)) = Some n.
Proof.
  unfold str_int. rewrite NilZero.isi.
  - simpl. f_equal. apply DecimalZ.of_to.
  - destruct n; simpl; [discriminate| |].
    + intros [= H]. revert H. apply DecimalPos.Unsigned.to_uint_nonnil.
    + discriminate.
  - destruct n; simpl; [discriminate|discriminate|].
    intros [= H]. revert H. apply DecimalPos.Unsigned.to_uint_nonnil.
Qed.

Lemma cmd_documented b year id u p :
  id ∈ dataset_ids year →
  cmd b year id u p = documented_subset_cmd b year u p id.
Proof.
  intros Hin.
  destruct (dataset_ids_cases year id Hin) as [-> | [-> | ->]]; reflexivity.
Qed.

Lemma dataset_ids_nonempty year : dataset_ids year ≠ [].
Proof. unfold dataset_ids. destruct (year =? 2021)%Z; discriminate. Qed.

Lemma dataset_ids_NoDup year : NoDup (dataset_ids year).
Proof.
  unfold dataset_ids.
  destruct (year =? 2021)%Z; apply (bool_decide_unpack _); vm_compute;
    exact I.
Qed.

Lemma boundary_box_keys :
  is_boundary_box boundary_box
    (mkBounds 24.0%float 31.0%float (-92.0)%float (-86.0)%float).
Proof. repeat split; reflexivity. Qed.

(** *** Error records *)

Lemma failure_message_None id c :
  failure_message id c = None ↔ exits_zero (spawn c) = true.
Proof.
  unfold failure_message, exits_zero.
  destruct (spawn c) as [rc out|e].
  - destruct (rc =? 0)%Z; split; congruence.
  - destruct e; split; discriminate.
Qed.

Lemma errors_of_app t1 t2 :
  errors_of (t1 ++ t2) = errors_of t1 ++ errors_of t2.
Proof. apply omap_app. Qed.

Lemma errors_of_dataset_trace c id :
  errors_of (dataset_trace c id)
  = match failure_message id (c id) with
    | None => []
    | Some m => [m]
    end.
Proof.
  unfold errors_of, dataset_trace; simpl.
  destruct (failure_message id (c id)); reflexivity.
Qed.

Lemma errors_of_all_ok c (ok : string → bool) ids :
  (∀ id, ok id = true → failure_message id (c id) = None) →
  (∀ id, id ∈ ids → ok id = true) →
  errors_of (flat_map (dataset_trace c) (attempted ok ids)) = [].
Proof.
  intros Hok Hall. rewrite attempted_all by exact Hall.
  induction ids as [|id rest IH]; [reflexivity|].
  change (flat_map (dataset_trace c) (id :: rest))
    with (dataset_trace c id ++ flat_map (dataset_trace c) rest).
  rewrite errors_of_app, errors_of_dataset_trace.
  rewrite Hok by apply Hall, list_elem_of_here.
  apply IH. intros id' Hin. apply Hall, list_elem_of_further, Hin.
Qed.

Lemma exits_zero_failure_message c (id : string) :
  exits_zero (spawn (c id)) = true → failure_message id (c id) = None.
Proof. apply failure_message_None. Qed.

Lemma dataset_trace_all_ok c year ids :
  (∀ id, id ∈ ids → id ∈ dataset_ids year) →
  (∀ id, id ∈ ids → exits_zero (spawn (c id)) = true) →
  flat_map (dataset_trace c) ids
  = flat_map
      (λ id, [EvLog INFO ("Downloading dataset: " +:+ id);
              EvMakedirs ("data/" +:+ id);
              EvRun (c id);
              EvLog INFO ("Successfully downloaded dataset: " +:+ id)])
      ids.
Proof.
  induction ids as [|id rest IH]; intros Hsub Hok; [reflexivity|].
  change (flat_map (dataset_trace c) (id :: rest))
    with (dataset_trace c id ++ flat_map (dataset_trace c) rest).
  rewrite IH.
  2:{ intros id' Hin. apply Hsub, list_elem_of_further, Hin. }
  2:{ intros id' Hin. apply Hok, list_elem_of_further, Hin. }
  unfold dataset_trace.
  rewrite (exits_zero_failure_message c id) by apply Hok, list_elem_of_here.
  destruct (dataset_output_dir year id) as [-> _]; [|reflexivity].
  apply Hsub, list_elem_of_here.
Qed.

Lemma runs_of_app t1 t2 : runs_of (t1 ++ t2) = runs_of t1 ++ runs_of t2.
Proof. apply omap_app. Qed.

Lemma runs_of_dataset_traces c ids :
  runs_of (flat_map (dataset_trace c) ids) = map c ids.
Proof.
  induction ids as [|id rest IH]; [reflexivity|].
  change (flat_map (dataset_trace c) (id :: rest))
    with (dataset_trace c id ++ flat_map (dataset_trace c) rest).
  rewrite runs_of_app, IH. unfold dataset_trace, runs_of. csimpl.
  destruct (failure_message id (c id)); reflexivity.
Qed.


(** *** Creating directories *)

Lemma make_chain_None ps :
  ∀ ds ds', make_chain ps ds = (None, ds') → ds' = ds ∪ list_to_set ps.
Proof.
  induction ps as [|p rest IH]; intros ds ds'.
  - simpl. intros [= <-]. symmetry. apply (right_id_L ∅ (∪)).
  - simpl make_chain. rewrite list_to_set_cons. case_bool_decide as Hin.
    + intros H. rewrite (IH _ _ H). apply set_eq. intros x.
      rewrite !elem_of_union, elem_of_singleton. split.
      * intros [Hx|Hx]; auto.
      * intros [Hx|[->|Hx]]; auto.
    + destruct (mkdir_refused p); [discriminate|].
      intros H. rewrite (IH _ _ H). symmetry. apply (assoc_L (∪)).
Qed.

Lemma make_chain_Some ps :
  ∀ ds e ds', make_chain ps ds = (Some e, ds') →
  ∃ p, p ∈ ps ∧ (p ∉ ds) ∧ mkdir_refused p = Some e.
Proof.
  induction ps as [|p rest IH]; intros ds e ds'; [discriminate|].
  simpl make_chain. case_bool_decide as Hin.
  - intros H. destruct (IH _ _ _ H) as (q & Hq & Hnot & Hr).
    exists q. split; [apply list_elem_of_further, Hq|]. split; assumption.
  - destruct (mkdir_refused p) as [e'|] eqn:Hp.
    + intros [= <- <-]. exists p. split; [apply list_elem_of_here|].
      split; assumption.
    + intros H. destruct (IH _ _ _ H) as (q & Hq & Hnot & Hr).
      exists q. split; [apply list_elem_of_further, Hq|].
      split; [|exact Hr]. intros Hin'. apply Hnot, elem_of_union. left.
      exact Hin'.
Qed.

(** No directory is lost, and a directory that appears is one of [ps]
    that the operating system did not refuse. *)
Lemma make_chain_frame ps :
  ∀ ds r ds', make_chain ps ds = (r, ds') →
  ds ⊆ ds'
  ∧ ∀ q, q ∈ ds' → q ∈ ds ∨ (q ∈ ps ∧ mkdir_refused q = None).
Proof.
  induction ps as [|p rest IH]; intros ds r ds'.
  - simpl. intros [= <- <-]. split; [reflexivity|]. auto.
  - simpl make_chain. case_bool_decide as Hin.
    + intros H. destruct (IH _ _ _ H) as (Hsub & Hnew). split; [exact Hsub|].
      intros q Hq. destruct (Hnew q Hq) as [Hq'|[Hq' Hr]]; [left; exact Hq'|].
      right. split; [apply list_elem_of_further, Hq'|exact Hr].
    + destruct (mkdir_refused p) as [e'|] eqn:Hp.
      * intros [= <- <-]. split; [reflexivity|]. auto.
      * intros H. destruct (IH _ _ _ H) as (Hsub & Hnew). split.
        -- intros x Hx. apply Hsub, elem_of_union. left. exact Hx.
        -- intros q Hq. destruct (Hnew q Hq) as [Hq'|[Hq' Hr]].
           ++ apply elem_of_union in Hq' as [Hq'|Hq']; [left; exact Hq'|].
              apply elem_of_singleton in Hq' as ->. right.
              split; [apply list_elem_of_here|exact Hp].
           ++ right. split; [apply list_elem_of_further, Hq'|exact Hr].
Qed.

(** *** One iteration and the loop of [download_copernicus] *)

Lemma download_dataset_cases b year id w u p :
  has_credentials w u p →
  let c := λ id, cmd b year id u p in
  let dir := os_path_join output_directory id in
  (∃ e ds',
     make_chain (path_chain "" dir) (dirs w) = (Some e, ds')
     ∧ download_dataset b year id w
       = (Raise e,
          mkWorld (environ w) ds'
            (trace w ++ [EvLog INFO ("Downloading dataset: " +:+ id);
                         EvMakedirs dir])))
  ∨ (make_chain (path_chain "" dir) (dirs w)
     = (None, dirs w ∪ list_to_set (path_chain "" dir))
     ∧ creatable w (path_chain "" dir)
     ∧ download_dataset b year id w
       = (Ok (if exits_zero (spawn (c id)) then None else Some false),
          mkWorld (environ w) (dirs w ∪ list_to_set (path_chain "" dir))
            (trace w ++ dataset_trace c id))).
Proof.
  intros [Hu Hp] c dir. subst c dir.
  destruct (make_chain (path_chain "" (os_path_join output_directory id))
              (dirs w)) as [[e|] ds'] eqn:Hmk.
  - left. exists e, ds'. split; [reflexivity|].
    unfold download_dataset, bind, logging_info, os_makedirs, emit.
    cbn [environ dirs trace]. rewrite Hmk. cbn [environ dirs trace].
    rewrite <- app_assoc. reflexivity.
  - right. pose proof (make_chain_None _ _ _ Hmk) as ->.
    split; [reflexivity|]. split.
    { intros q Hq.
      destruct (make_chain_frame _ _ _ _ Hmk) as [_ Hnew].
      destruct (Hnew q) as [Hq'|[_ Hq']]; auto.
      apply elem_of_union. right. apply elem_of_list_to_set, Hq. }
    unfold download_dataset, bind, try_except, logging_info, logging_error,
      os_makedirs, environ_getitem, subprocess_run, emit, ret,
      dataset_trace, failure_message.
    cbn [environ dirs trace]. rewrite Hmk. cbn [environ dirs trace].
    rewrite Hu. cbn [environ dirs trace]. rewrite Hp.
    cbn [environ dirs trace].
    destruct (spawn (cmd b year id u p)) as [rc out|e]; simpl.
    + destruct (rc =? 0)%Z; simpl; rewrite <- !app_assoc; reflexivity.
    + destruct e; simpl; rewrite <- !app_assoc; reflexivity.
Qed.


(** The three ways the loop over the datasets ends, with the credentials
    in the environment: every command exits with status zero and the code
    after the loop returns [True]; or the command of a dataset does not
    and the body returns [False]; or [os.makedirs] raises for a dataset
    and the error leaves the loop. *)
Lemma download_loop_cases b year u p ids :
  ∀ w, has_credentials w u p →
  let c := λ id, cmd b year id u p in
  let ok := λ id, exits_zero (spawn (c id)) in
  let chain := λ id, path_chain "" (os_path_join output_directory id) in
  let r := for_return ids (download_dataset b year)
             (logging_info "Completed all Copernicus data downloads"
              >> ret true) w in
  (r.1 = Ok true
   ∧ (∀ id, id ∈ ids → ok id = true)
   ∧ creatable w (flat_map chain ids)
   ∧ r.2 = mkWorld (environ w) (dirs w ∪ list_to_set (flat_map chain ids))
             (trace w ++ flat_map (dataset_trace c) ids
              ++ [EvLog INFO "Completed all Copernicus data downloads"]))
  ∨ (∃ pre id post,
       ids = pre ++ id :: post
       ∧ (∀ id', id' ∈ pre → ok id' = true) ∧ ok id = false
       ∧ r.1 = Ok false
       ∧ r.2 = mkWorld (environ w)
                 (dirs w ∪ list_to_set (flat_map chain (pre ++ [id])))
                 (trace w ++ flat_map (dataset_trace c) (pre ++ [id])))
  ∨ (∃ pre id post e ds',
       ids = pre ++ id :: post
       ∧ (∀ id', id' ∈ pre → ok id' = true)
       ∧ r.1 = Raise e
       ∧ make_chain (chain id) (dirs w ∪ list_to_set (flat_map chain pre))
         = (Some e, ds')
       ∧ r.2 = mkWorld (environ w) ds'
                 (trace w ++ flat_map (dataset_trace c) pre
                  ++ [EvLog INFO ("Downloading dataset: " +:+ id);
                      EvMakedirs (os_path_join output_directory id)])).
Proof.
  intros w Hc c ok chain. revert w Hc.
  induction ids as [|id rest IH]; intros w Hc r.
  - left. subst r. destruct w as [e ds t].
    unfold for_return, bind, logging_info, ret, emit. cbn [fst snd].
    split; [reflexivity|]. split; [|split].
    + intros id Hin. apply elem_of_nil in Hin. contradiction.
    + intros q Hq. apply elem_of_nil in Hq. contradiction.
    + cbn [flat_map environ dirs trace app]. f_equal.
      symmetry. apply (right_id_L ∅ (∪)).
  - assert (Hr : r = match download_dataset b year id w with
                     | (Ok a, w') =>
                         match a with
                         | Some v => ret v
                         | None =>
                             for_return rest (download_dataset b year)
                               (logging_info
                                  "Completed all Copernicus data downloads"
                                >> ret true)
                         end w'
                     | (Raise e, w') => (Raise e, w')
                     end) by reflexivity.
    clearbody r.
    destruct (download_dataset_cases b year id w u p Hc)
      as [(e & ds' & Hmk & Hrun)|(Hmk & Hfree & Hrun)]; rewrite Hrun in Hr.
    + right. right. exists [], id, rest, e, ds'. subst r.
      split; [reflexivity|]. split.
      { intros id' Hin. apply elem_of_nil in Hin. contradiction. }
      split; [reflexivity|]. split; [|reflexivity].
      replace (dirs w ∪ list_to_set (flat_map chain [])) with (dirs w);
        [exact Hmk|]. symmetry. apply (right_id_L ∅ (∪)).
    + fold (c id) in Hr. fold (ok id) in Hr. fold (chain id) in Hr.
      destruct (ok id) eqn:Hok.
      * set (w1 := mkWorld (environ w) (dirs w ∪ list_to_set (chain id))
                     (trace w ++ dataset_trace c id)) in *.
        assert (Hset : ∀ l, dirs w1 ∪ list_to_set (flat_map chain l)
                            = dirs w ∪ list_to_set (flat_map chain (id :: l))).
        { intros l. cbn [flat_map dirs w1].
          rewrite list_to_set_app_L. symmetry. apply (assoc_L (∪)). }
        cbv beta iota in Hr. pose proof (IH w1 Hc) as IHw. cbv zeta in IHw.
        assert (Hr' : r = for_return rest (download_dataset b year)
                            (logging_info
                               "Completed all Copernicus data downloads"
                             >> ret true) w1) by exact Hr.
        clear Hr. rewrite <- Hr' in IHw. clear Hr'.
        destruct IHw
          as [(Hres & Hall & Hfree' & Hw)
             |[(pre & id' & post & -> & Hpre & Hid & Hres & Hw)
              |(pre & id' & post & e & ds' & -> & Hpre & Hres & Hmk' & Hw)]].
        -- left. split; [exact Hres|]. split.
           { intros x Hx. apply elem_of_cons in Hx as [->|Hx]; auto. }
           split.
           { intros q Hq. cbn [flat_map] in Hq.
             apply elem_of_app in Hq as [Hq|Hq]; [apply Hfree, Hq|].
             destruct (Hfree' q Hq) as [Hq'|Hq']; [|right; exact Hq'].
             cbn [dirs w1] in Hq'.
             apply elem_of_union in Hq' as [Hq'|Hq']; [left; exact Hq'|].
             apply elem_of_list_to_set in Hq'. apply Hfree, Hq'. }
           rewrite Hw, Hset. cbn [environ trace w1 flat_map].
           rewrite <- !app_assoc. reflexivity.
        -- right. left. exists (id :: pre), id', post.
           split; [reflexivity|]. split.
           { intros x Hx. apply elem_of_cons in Hx as [->|Hx]; auto. }
           split; [exact Hid|]. split; [exact Hres|].
           rewrite Hw, Hset. cbn [environ trace w1 flat_map app].
           rewrite <- !app_assoc. reflexivity.
        -- right. right. exists (id :: pre), id', post, e, ds'.
           split; [reflexivity|]. split.
           { intros x Hx. apply elem_of_cons in Hx as [->|Hx]; auto. }
           split; [exact Hres|]. split.
           { rewrite <- Hset. exact Hmk'. }
           rewrite Hw. cbn [environ trace w1 flat_map app].
           rewrite <- !app_assoc. reflexivity.
      * right. left. exists [], id, rest. subst r.
        split; [reflexivity|]. split.
        { intros id' Hin. apply elem_of_nil in Hin. contradiction. }
        split; [exact Hok|]. split; [reflexivity|].
        unfold ret. cbn [snd flat_map app].
        rewrite !app_nil_r. reflexivity.
Qed.


(** With the boundary box and the credentials in place the call is the
    loop, run after the start record. *)
Lemma download_copernicus_loop d b year w u p :
  is_boundary_box d b → has_credentials w u p →
  download_copernicus d year w
  = for_return (dataset_ids year) (download_dataset b year)
      (logging_info "Completed all Copernicus data downloads" >> ret true)
      (mkWorld (environ w) (dirs w)
         (trace w ++ [EvLog INFO ("Starting Copernicus data download for "
                                  +:+ str_int year)])).
Proof.
  intros (Ha & Hb & Hc & Hd) [Hu Hp].
  unfold download_copernicus, dict_getitem.
  rewrite Ha, Hb, Hc, Hd.
  unfold bind at 1 2 3 4 5 6 7, ret at 1 2 3 4, logging_info at 1,
    environ_contains, emit. simpl.
  rewrite Hu, Hp. rewrite !bool_decide_eq_true_2 by eauto. simpl.
  destruct b as [la lb lc ld]; reflexivity.
Qed.

(** The three ways a call with the boundary box and the credentials
    ends. *)
Lemma download_copernicus_cases d b year w u p :
  is_boundary_box d b → has_credentials w u p →
  let c := λ id, cmd b year id u p in
  let ok := λ id, exits_zero (spawn (c id)) in
  let chain := λ id, path_chain "" (os_path_join output_directory id) in
  let start :=
    EvLog INFO ("Starting Copernicus data download for " +:+ str_int year) in
  let r := download_copernicus d year w in
  (r.1 = Ok true
   ∧ (∀ id, id ∈ dataset_ids year → ok id = true)
   ∧ creatable w (flat_map chain (dataset_ids year))
   ∧ r.2 = mkWorld (environ w)
             (dirs w ∪ list_to_set (flat_map chain (dataset_ids year)))
             (trace w ++ [start]
              ++ flat_map (dataset_trace c) (dataset_ids year)
              ++ [EvLog INFO "Completed all Copernicus data downloads"]))
  ∨ (∃ pre id post,
       dataset_ids year = pre ++ id :: post
       ∧ (∀ id', id' ∈ pre → ok id' = true) ∧ ok id = false
       ∧ r.1 = Ok false
       ∧ r.2 = mkWorld (environ w)
                 (dirs w ∪ list_to_set (flat_map chain (pre ++ [id])))
                 (trace w ++ [start]
                  ++ flat_map (dataset_trace c) (pre ++ [id])))
  ∨ (∃ pre id post e ds',
       dataset_ids year = pre ++ id :: post
       ∧ (∀ id', id' ∈ pre → ok id' = true)
       ∧ r.1 = Raise e
       ∧ make_chain (chain id) (dirs w ∪ list_to_set (flat_map chain pre))
         = (Some e, ds')
       ∧ r.2 = mkWorld (environ w) ds'
                 (trace w ++ [start]
                  ++ flat_map (dataset_trace c) pre
                  ++ [EvLog INFO ("Downloading dataset: " +:+ id);
                      EvMakedirs (os_path_join output_directory id)])).
Proof.
  intros Hbox Hcred c ok chain start r. subst r.
  rewrite (download_copernicus_loop d b year w u p Hbox Hcred).
  fold start.
  pose proof (download_loop_cases b year u p (dataset_ids year)
                (mkWorld (environ w) (dirs w) (trace w ++ [start])) Hcred)
    as Hcases.
  cbv zeta in Hcases. fold c ok chain in Hcases.
  cbn [environ dirs trace] in Hcases.
  destruct Hcases
    as [(Hres & Hall & Hfree & Hw)
       |[(pre & id & post & Hsplit & Hpre & Hid & Hres & Hw)
        |(pre & id & post & e & ds' & Hsplit & Hpre & Hres & Hmk & Hw)]].
  - left. split; [exact Hres|]. split; [exact Hall|]. split; [exact Hfree|].
    rewrite Hw, <- !app_assoc. reflexivity.
  - right. left. exists pre, id, post.
    split; [exact Hsplit|]. split; [exact Hpre|]. split; [exact Hid|].
    split; [exact Hres|]. rewrite Hw, <- !app_assoc. reflexivity.
  - right. right. exists pre, id, post, e, ds'.
    split; [exact Hsplit|]. split; [exact Hpre|]. split; [exact Hres|].
    split; [exact Hmk|]. rewrite Hw, <- !app_assoc. reflexivity.
Qed.


(** *** Reading a trace *)

Lemma invocations_runs_of w : invocations w = runs_of (trace w).
Proof. reflexivity. Qed.

Lemma makedirs_calls_mkdirs_of w : makedirs_calls w = mkdirs_of (trace w).
Proof. reflexivity. Qed.

Lemma effects_effects_of w : effects w = effects_of (trace w).
Proof. reflexivity. Qed.

Lemma error_logs_errors_of w : error_logs w = errors_of (trace w).
Proof. reflexivity. Qed.

Lemma mkdirs_of_app t1 t2 : mkdirs_of (t1 ++ t2) = mkdirs_of t1 ++ mkdirs_of t2.
Proof. apply omap_app. Qed.

Lemma effects_of_app t1 t2 :
  effects_of (t1 ++ t2) = effects_of t1 ++ effects_of t2.
Proof. apply List.filter_app. Qed.

Lemma mkdirs_of_dataset_traces c ids :
  mkdirs_of (flat_map (dataset_trace c) ids)
  = map (os_path_join output_directory) ids.
Proof.
  induction ids as [|id rest IH]; [reflexivity|].
  change (flat_map (dataset_trace c) (id :: rest))
    with (dataset_trace c id ++ flat_map (dataset_trace c) rest).
  rewrite mkdirs_of_app, IH. unfold dataset_trace, mkdirs_of. csimpl.
  destruct (failure_message id (c id)); reflexivity.
Qed.

Lemma effects_of_dataset_traces c ids :
  effects_of (flat_map (dataset_trace c) ids)
  = flat_map (dataset_effects c) ids.
Proof.
  induction ids as [|id rest IH]; [reflexivity|].
  change (flat_map (dataset_trace c) (id :: rest))
    with (dataset_trace c id ++ flat_map (dataset_trace c) rest).
  rewrite effects_of_app, IH. unfold dataset_trace, effects_of. simpl.
  destruct (failure_message id (c id)); reflexivity.
Qed.

(** The commands, the [os.makedirs] paths, the effects and the [ERROR]
    records of the trace of a call: [l] are the datasets whose iteration
    ran to its end, [tail] is what follows them. *)
Lemma runs_of_call t s c l tail :
  runs_of tail = [] →
  runs_of (t ++ [EvLog INFO s] ++ flat_map (dataset_trace c) l ++ tail)
  = runs_of t ++ map c l.
Proof.
  intros Ht. rewrite !runs_of_app, runs_of_dataset_traces, Ht, app_nil_r.
  reflexivity.
Qed.

Lemma mkdirs_of_call t s c l tail :
  mkdirs_of (t ++ [EvLog INFO s] ++ flat_map (dataset_trace c) l ++ tail)
  = mkdirs_of t ++ map (os_path_join output_directory) l ++ mkdirs_of tail.
Proof.
  rewrite !mkdirs_of_app, mkdirs_of_dataset_traces. reflexivity.
Qed.

Lemma effects_of_call t s c l tail :
  effects_of (t ++ [EvLog INFO s] ++ flat_map (dataset_trace c) l ++ tail)
  = effects_of t ++ flat_map (dataset_effects c) l ++ effects_of tail.
Proof.
  rewrite !effects_of_app, effects_of_dataset_traces. reflexivity.
Qed.

Lemma errors_of_call t s c l tail :
  errors_of (t ++ [EvLog INFO s] ++ flat_map (dataset_trace c) l ++ tail)
  = errors_of t ++ errors_of (flat_map (dataset_trace c) l) ++ errors_of tail.
Proof. rewrite !errors_of_app. reflexivity. Qed.

(** *** Directories of the datasets *)

Lemma chain_elem_of year ids x :
  (∀ id, id ∈ ids → id ∈ dataset_ids year) →
  x ∈ flat_map (λ id, path_chain "" (os_path_join output_directory id)) ids →
  x = "data" ∨ ∃ id, id ∈ ids ∧ x = "data/" +:+ id.
Proof.
  intros Hsub Hx. apply list_elem_of_In, in_flat_map in Hx as (id & Hid & Hx).
  apply list_elem_of_In in Hid.
  destruct (dataset_output_dir year id (Hsub id Hid)) as [_ Hchain].
  rewrite Hchain in Hx. destruct Hx as [<-|[<-|[]]]; [left|right]; eauto.
Qed.

Lemma chain_elem_of_dir year ids id :
  (∀ id', id' ∈ ids → id' ∈ dataset_ids year) → id ∈ ids →
  "data/" +:+ id
  ∈ flat_map (λ id', path_chain "" (os_path_join output_directory id')) ids.
Proof.
  intros Hsub Hin. apply list_elem_of_In, in_flat_map.
  exists id. split; [apply list_elem_of_In, Hin|].
  destruct (dataset_output_dir year id (Hsub id Hin)) as [_ ->].
  right. left. reflexivity.
Qed.

Lemma elem_of_split_l {A} (pre post : list A) x y :
  y ∈ pre ++ [x] → y ∈ pre ++ x :: post.
Proof.
  intros Hy. apply elem_of_app in Hy as [Hy|Hy]; apply elem_of_app.
  - left. exact Hy.
  - right. apply elem_of_cons in Hy as [->|Hy]; [apply list_elem_of_here|].
    apply elem_of_nil in Hy. contradiction.
Qed.

Lemma prefix_split_snoc {A} (pre post : list A) x :
  pre ++ [x] `prefix_of` pre ++ x :: post.
Proof. exists post. rewrite <- app_assoc. reflexivity. Qed.

Lemma prefix_split {A} (pre post : list A) x :
  pre `prefix_of` pre ++ x :: post.
Proof. exists (x :: post). reflexivity. Qed.

(** The subprocesses one call starts: none, or the [subset] commands of the
    first datasets of the year, built from the boundary box and the
    credentials. *)
Lemma download_copernicus_commands d year w :
  invocations (download_copernicus d year w).2 = invocations w
  ∨ ∃ b u p ids,
      is_boundary_box d b ∧ has_credentials w u p
      ∧ ids `prefix_of` dataset_ids year
      ∧ invocations (download_copernicus d year w).2
        = invocations w ++ map (λ id, cmd b year id u p) ids.
Proof.
  destruct (d !! "lat_min") as [la|] eqn:Ha;
    [destruct (d !! "lat_max") as [lb|] eqn:Hb;
     [destruct (d !! "lon_min") as [lc|] eqn:Hc;
      [destruct (d !! "lon_max") as [ld|] eqn:Hd|]|]|].
  2-5: left;
    destruct (download_copernicus_first_missing d year w) as (k & _ & _ & Hk);
    [auto 6|rewrite Hk; reflexivity].
  assert (Hbox : is_boundary_box d (mkBounds la lb lc ld)).
  { repeat split; assumption. }
  destruct (environ w !! "CMEMS_USERNAME") as [u|] eqn:Hu;
    [destruct (environ w !! "CMEMS_PASSWORD") as [p|] eqn:Hp|].
  2-3: left;
    rewrite (download_copernicus_no_credentials d _ year w Hbox) by auto;
    destruct w as [e ds t]; simpl; rewrite invocations_app; apply app_nil_r.
  right. exists (mkBounds la lb lc ld), u, p.
  destruct (download_copernicus_cases d _ year w u p Hbox (conj Hu Hp))
    as [(_ & _ & _ & Hw)
       |[(pre & id & post & Hsplit & _ & _ & _ & Hw)
        |(pre & id & post & e & ds' & Hsplit & _ & _ & _ & Hw)]];
    rewrite Hw, !invocations_runs_of; cbn [trace].
  - exists (dataset_ids year). split; [exact Hbox|].
    split; [split; assumption|]. split; [reflexivity|].
    apply runs_of_call. reflexivity.
  - exists (pre ++ [id]). split; [exact Hbox|].
    split; [split; assumption|]. split.
    { rewrite Hsplit. apply prefix_split_snoc. }
    rewrite <- (app_nil_r (flat_map _ (pre ++ [id]))).
    apply runs_of_call. reflexivity.
  - exists pre. split; [exact Hbox|].
    split; [split; assumption|]. split.
    { rewrite Hsplit. apply prefix_split. }
    apply runs_of_call. reflexivity.
Qed.

(** ** The properties the specification states *)

(** C2: when [CMEMS_USERNAME] or [CMEMS_PASSWORD] is not in the environment,
    [download_copernicus] starts no subprocess and creates no directory,
    whatever the dict and the year, and with the four keys of the boundary
    box in the dict it returns [False]. *)
Theorem download_copernicus_without_credentials d year w :
  environ w !! "CMEMS_USERNAME" = None ∨ environ w !! "CMEMS_PASSWORD" = None →
  let r := download_copernicus d year w in
  invocations r.2 = invocations w
  ∧ effects r.2 = effects w
  ∧ dirs r.2 = dirs w
  ∧ (∀ b, is_boundary_box d b → r.1 = Ok false).
Proof.
  intros Hmiss r.
  destruct (d !! "lat_min") as [la|] eqn:Ha;
    [destruct (d !! "lat_max") as [lb|] eqn:Hb;
     [destruct (d !! "lon_min") as [lc|] eqn:Hc;
      [destruct (d !! "lon_max") as [ld|] eqn:Hd|]|]|].
  1:{ assert (Hbox : is_boundary_box d (mkBounds la lb lc ld)).
      { repeat split; assumption. }
      subst r.
      rewrite (download_copernicus_no_credentials d _ year w Hbox Hmiss).
      simpl. destruct w as [e ds t]; simpl.
      rewrite invocations_app, effects_app.
      repeat split; try apply app_nil_r. }
  all: destruct (download_copernicus_first_missing d year w) as (k & _ & _ & Hk);
    [auto 6|].
  all: subst r; rewrite Hk; simpl; repeat split.
  all: intros b (Ha' & Hb' & Hc' & Hd'); congruence.
Qed.

(** C9: when the dict lacks one of the keys [lat_min], [lat_max], [lon_min],
    [lon_max], [download_copernicus] raises [KeyError] for a missing key
    and returns nothing; the world is left as it was, so no subprocess was
    started and no directory created, with or without the credentials. *)
Theorem download_copernicus_missing_key d year w k :
  k ∈ ["lat_min"; "lat_max"; "lon_min"; "lon_max"] → d !! k = None →
  ∃ k', k' ∈ ["lat_min"; "lat_max"; "lon_min"; "lon_max"] ∧ d !! k' = None
        ∧ download_copernicus d year w = (Raise (KeyError k'), w).
Proof.
  intros Hin Hk. apply download_copernicus_first_missing.
  repeat (apply elem_of_cons in Hin as [->|Hin]; [auto 6|]).
  apply elem_of_nil in Hin. contradiction.
Qed.

(** C4: every [subset] command that [download_copernicus] starts ends with
    [--minimum-depth v --maximum-depth v], where [v] is
    [0.5057600140571594] when the command is for the dataset
    [cmems_mod_glo_bgc_my_0.25deg_P1D-m] and [0.49402499198913574] when it
    is for any other dataset. *)
Theorem depth_range_by_dataset d year w cs c :
  invocations (download_copernicus d year w).2 = invocations w ++ cs →
  c ∈ cs →
  ∃ id v,
    c !! 2%nat = Some ("--dataset-id=" +:+ id)
    ∧ drop 24 c = ["--minimum-depth"; v; "--maximum-depth"; v]
    ∧ (id = "cmems_mod_glo_bgc_my_0.25deg_P1D-m" → v = "0.5057600140571594")
    ∧ (id ≠ "cmems_mod_glo_bgc_my_0.25deg_P1D-m" → v = "0.49402499198913574").
Proof.
  intros Hcs Hin.
  destruct (download_copernicus_commands d year w)
    as [Hnone|(b & u & p & ids & _ & _ & _ & Hinv)].
  - rewrite Hnone in Hcs. rewrite <- (app_nil_r (invocations w)) in Hcs at 1.
    apply app_inv_head in Hcs. subst cs. apply elem_of_nil in Hin. contradiction.
  - rewrite Hinv in Hcs. apply app_inv_head in Hcs. subst cs.
    apply list_elem_of_fmap in Hin as (id & -> & _).
    exists id.
    exists (if bool_decide (id = "cmems_mod_glo_bgc_my_0.25deg_P1D-m")
            then "0.5057600140571594" else "0.49402499198913574").
    split; [reflexivity|]. split.
    + unfold cmd, depth_args. simpl. case_bool_decide; reflexivity.
    + split; intros H.
      * rewrite bool_decide_eq_true_2 by exact H. reflexivity.
      * rewrite bool_decide_eq_false_2 by exact H. reflexivity.
Qed.

(** C6: in every [subset] command that [download_copernicus] starts for
    the year [Y], the argument after [--start-datetime] is the decimal
    numeral of [Y] followed by [-08-01T00:00:00], and the argument after
    [--end-datetime] is that numeral followed by [-10-31T23:59:59]. *)
Theorem season_window_of_year d year w cs c :
  invocations (download_copernicus d year w).2 = invocations w ++ cs →
  c ∈ cs →
  let Y := str_int year in
  option_map Z.of_int (NilZero.int_of_string Y) = Some year
  ∧ c !! 15%nat = Some "--start-datetime"
  ∧ c !! 16%nat = Some (Y +:+ "-08-01T00:00:00")
  ∧ c !! 17%nat = Some "--end-datetime"
  ∧ c !! 18%nat = Some (Y +:+ "-10-31T23:59:59").
Proof.
  intros Hcs Hin Y.
  destruct (download_copernicus_commands d year w)
    as [Hnone|(b & u & p & ids & _ & _ & _ & Hinv)].
  - rewrite Hnone in Hcs. rewrite <- (app_nil_r (invocations w)) in Hcs at 1.
    apply app_inv_head in Hcs. subst cs. apply elem_of_nil in Hin. contradiction.
  - rewrite Hinv in Hcs. apply app_inv_head in Hcs. subst cs.
    apply list_elem_of_fmap in Hin as (id & -> & _).
    split; [apply str_int_reads_back|].
    repeat split; reflexivity.
Qed.


Lemma cmd_id_inj b year u p id id' :
  cmd b year id u p = cmd b year id' u p → id = id'.
Proof.
  intros H. pose proof (f_equal (λ l, l !! 2%nat) H) as Hid.
  cbv beta in Hid. unfold cmd in Hid. simpl in Hid.
  injection Hid as Hid. exact Hid.
Qed.

Lemma chain_flat_map year ids :
  (∀ id, id ∈ ids → id ∈ dataset_ids year) →
  flat_map (λ id, path_chain "" (os_path_join output_directory id)) ids
  = flat_map (λ id, ["data"; "data/" +:+ id]) ids.
Proof.
  induction ids as [|id rest IH]; intros Hsub; [reflexivity|].
  cbn [flat_map]. rewrite IH.
  2:{ intros id' Hin. apply Hsub, list_elem_of_further, Hin. }
  destruct (dataset_output_dir year id) as [_ ->]; [|reflexivity].
  apply Hsub, list_elem_of_here.
Qed.

(** When nothing stands in the way of the directories, [os.makedirs] does
    not raise. *)
Lemma creatable_no_refusal w ps D e ds' :
  creatable w ps → dirs w ⊆ D → make_chain ps D = (Some e, ds') → False.
Proof.
  intros Hfree Hsub Hmk.
  destruct (make_chain_Some _ _ _ _ Hmk) as (q & Hq & Hnot & Hr).
  destruct (Hfree q Hq) as [Hin|Hnone].
  - apply Hnot, Hsub, Hin.
  - rewrite Hnone in Hr. discriminate.
Qed.

Lemma creatable_mono w w' ps :
  creatable w ps → dirs w ⊆ dirs w' → creatable w' ps.
Proof.
  intros Hfree Hsub q Hq. destruct (Hfree q Hq); [left; apply Hsub|right]; auto.
Qed.

Lemma creatable_sub w ps qs :
  creatable w ps → (∀ q, q ∈ qs → q ∈ ps) → creatable w qs.
Proof. intros Hfree Hsub q Hq. apply Hfree, Hsub, Hq. Qed.

(** The call in full when nothing stands in the way of the directories of
    the year. *)
Lemma download_copernicus_trace d b year w u p :
  is_boundary_box d b → has_credentials w u p →
  creatable w
    (flat_map (λ id, path_chain "" (os_path_join output_directory id))
       (dataset_ids year)) →
  let c := λ id, cmd b year id u p in
  let ok := λ id, exits_zero (spawn (c id)) in
  download_copernicus d year w
  = (Ok (forallb ok (dataset_ids year)),
     mkWorld (environ w)
       (dirs w ∪ list_to_set
          (flat_map (λ id, path_chain "" (os_path_join output_directory id))
             (attempted ok (dataset_ids year))))
       (trace w
        ++ [EvLog INFO ("Starting Copernicus data download for "
                        +:+ str_int year)]
        ++ flat_map (dataset_trace c) (attempted ok (dataset_ids year))
        ++ (if forallb ok (dataset_ids year)
            then [EvLog INFO "Completed all Copernicus data downloads"]
            else []))).
Proof.
  intros Hbox Hcred Hfree c ok.
  pose proof (download_copernicus_cases d b year w u p Hbox Hcred) as Hcases.
  cbv zeta in Hcases. fold c ok in Hcases.
  destruct (download_copernicus d year w) as [res w'].
  cbn [fst snd] in Hcases.
  destruct Hcases
    as [(-> & Hall & _ & ->)
       |[(pre & id & post & Hsplit & Hpre & Hid & -> & ->)
        |(pre & id & post & e & ds' & Hsplit & Hpre & _ & Hmk & _)]].
  - rewrite (proj2 (forallb_elem_of ok _) Hall), (attempted_all ok _ Hall).
    reflexivity.
  - assert (Hall : forallb ok (dataset_ids year) = false).
    { apply not_true_is_false. intros Hall. rewrite forallb_elem_of in Hall.
      rewrite (Hall id) in Hid; [discriminate|].
      rewrite Hsplit. apply elem_of_app. right. apply list_elem_of_here. }
    rewrite Hall, Hsplit, (attempted_first_failure ok pre id post Hpre Hid).
    rewrite app_nil_r. reflexivity.
  - exfalso. eapply (creatable_no_refusal w); [| |exact Hmk].
    + eapply creatable_sub; [exact Hfree|].
      intros q Hq. apply list_elem_of_In, in_flat_map. exists id.
      split; [|apply list_elem_of_In, Hq].
      apply list_elem_of_In. rewrite Hsplit. apply elem_of_app. right.
      apply list_elem_of_here.
    + apply union_subseteq_l.
Qed.

(** C1: with the four keys of the boundary box and both credentials in
    place, [download_copernicus] returns [True] exactly when it has
    started the subprocess of every dataset of the year and each of them
    exits with status zero.  When the subprocess it started for a dataset
    is the first that exits with another status or cannot be run, it
    returns [False], and the subprocesses started are those of the
    datasets up to that one and none of the remaining ones.  When moreover
    the operating system does not refuse the output directories, a boolean
    is returned, and it is [True] exactly when the subprocess of every
    dataset of the year exits with status zero. *)
Theorem download_copernicus_true_iff_all_exit_zero d b year w u p :
  is_boundary_box d b → has_credentials w u p →
  let c := λ id, cmd b year id u p in
  let r := download_copernicus d year w in
  (r.1 = Ok true ↔
     invocations r.2 = invocations w ++ map c (dataset_ids year)
     ∧ ∀ id, id ∈ dataset_ids year → ∃ out, spawn (c id) = Exited 0 out)
  ∧ (∀ pre id post cs,
       dataset_ids year = pre ++ id :: post →
       (∀ id', id' ∈ pre → ∃ out, spawn (c id') = Exited 0 out) →
       (¬ ∃ out, spawn (c id) = Exited 0 out) →
       invocations r.2 = invocations w ++ cs → c id ∈ cs →
       r.1 = Ok false ∧ cs = map c (pre ++ [id]))
  ∧ (creatable w
       (flat_map (λ id, ["data"; "data/" +:+ id]) (dataset_ids year)) →
     (r.1 = Ok true ∨ r.1 = Ok false)
     ∧ (r.1 = Ok true ↔
        ∀ id, id ∈ dataset_ids year → ∃ out, spawn (c id) = Exited 0 out)
     ∧ (∀ pre id post,
          dataset_ids year = pre ++ id :: post →
          (∀ id', id' ∈ pre → ∃ out, spawn (c id') = Exited 0 out) →
          (¬ ∃ out, spawn (c id) = Exited 0 out) →
          r.1 = Ok false
          ∧ invocations r.2 = invocations w ++ map c (pre ++ [id]))).
Proof.
  intros Hbox Hcred c r.
  set (ok := λ id, exits_zero (spawn (c id))).
  assert (Hfail : ∀ pre id post,
            dataset_ids year = pre ++ id :: post →
            (∀ id', id' ∈ pre → ∃ out, spawn (c id') = Exited 0 out) →
            (¬ ∃ out, spawn (c id) = Exited 0 out) →
            (∀ id', id' ∈ pre → ok id' = true) ∧ ok id = false
            ∧ attempted ok (dataset_ids year) = pre ++ [id]).
  { intros pre id post Hsplit Hpre Hid.
    assert (Hpre' : ∀ id', id' ∈ pre → ok id' = true).
    { intros id' Hin. apply exits_zero_spec, Hpre, Hin. }
    assert (Hid' : ok id = false).
    { destruct (ok id) eqn:E; [|reflexivity].
      apply exits_zero_spec in E. contradiction. }
    split; [exact Hpre'|]. split; [exact Hid'|].
    rewrite Hsplit. apply attempted_first_failure; assumption. }
  pose proof (download_copernicus_cases d b year w u p Hbox Hcred) as Hcases.
  cbv zeta in Hcases. fold c ok r in Hcases.
  split; [|split].
  - destruct Hcases
      as [(Hres & Hall & _ & Hw)
         |[(pre & id & post & Hsplit & Hpre & Hid & Hres & Hw)
          |(pre & id & post & e & ds' & Hsplit & Hpre & Hres & _ & Hw)]].
    + split; [intros _|intros _; exact Hres]. split.
      * rewrite Hw, !invocations_runs_of. cbn [trace].
        apply runs_of_call. reflexivity.
      * intros id Hin. apply exits_zero_spec, Hall, Hin.
    + split; [rewrite Hres; discriminate|]. intros [_ Hall]. exfalso.
      assert (Hin : id ∈ dataset_ids year).
      { rewrite Hsplit. apply elem_of_app. right. apply list_elem_of_here. }
      apply Hall, exits_zero_spec in Hin. fold (ok id) in Hin. congruence.
    + split; [rewrite Hres; discriminate|]. intros [Hinv _]. exfalso.
      rewrite Hw, !invocations_runs_of in Hinv. cbn [trace] in Hinv.
      rewrite runs_of_call in Hinv by reflexivity.
      apply app_inv_head in Hinv. apply (f_equal length) in Hinv.
      rewrite Hsplit, !length_map, length_app in Hinv. simpl in Hinv. lia.
  - intros pre id post cs Hsplit Hpre Hid Hinv Hin.
    destruct (Hfail pre id post Hsplit Hpre Hid) as (Hpre' & Hid' & Hatt).
    destruct Hcases
      as [(Hres & Hall & _ & Hw)
         |[(pre' & id' & post' & Hsplit' & Hpre'' & Hid'' & Hres & Hw)
          |(pre' & id' & post' & e & ds' & Hsplit' & Hpre'' & Hres & _ & Hw)]].
    + exfalso. rewrite (Hall id) in Hid'; [discriminate|].
      rewrite Hsplit. apply elem_of_app. right. apply list_elem_of_here.
    + split; [exact Hres|].
      rewrite Hw, !invocations_runs_of in Hinv. cbn [trace] in Hinv.
      rewrite <- (app_nil_r (flat_map _ (pre' ++ [id']))) in Hinv.
      rewrite runs_of_call in Hinv by reflexivity.
      apply app_inv_head in Hinv. rewrite <- Hinv, <- Hatt, Hsplit'.
      rewrite (attempted_first_failure ok pre' id' post' Hpre'' Hid'').
      reflexivity.
    + exfalso.
      rewrite Hw, !invocations_runs_of in Hinv. cbn [trace] in Hinv.
      rewrite runs_of_call in Hinv by reflexivity.
      apply app_inv_head in Hinv. rewrite <- Hinv in Hin.
      apply list_elem_of_fmap in Hin as (x & Hx & Hxin).
      apply cmd_id_inj in Hx. subst x.
      rewrite (Hpre'' id Hxin) in Hid'. discriminate.
  - intros Hfree.
    assert (Hfree' : creatable w
              (flat_map (λ id, path_chain "" (os_path_join output_directory id))
                 (dataset_ids year))).
    { rewrite (chain_flat_map year); [exact Hfree|]. auto. }
    pose proof (download_copernicus_trace d b year w u p Hbox Hcred Hfree')
      as Hrun.
    cbv zeta in Hrun. fold c ok r in Hrun. clear Hcases.
    rewrite Hrun. cbn [fst snd]. split; [|split].
    + destruct (forallb ok (dataset_ids year)); auto.
    + split.
      * intros [= Hall]. intros id Hin. apply exits_zero_spec.
        revert id Hin. apply forallb_elem_of. exact Hall.
      * intros Hall. f_equal. apply forallb_elem_of.
        intros id Hin. apply exits_zero_spec, Hall, Hin.
    + intros pre id post Hsplit Hpre Hid.
      destruct (Hfail pre id post Hsplit Hpre Hid) as (Hpre' & Hid' & Hatt).
      split.
      * f_equal. apply not_true_is_false. intros Hall.
        rewrite forallb_elem_of in Hall.
        rewrite (Hall id) in Hid'; [discriminate|].
        rewrite Hsplit. apply elem_of_app. right. apply list_elem_of_here.
      * rewrite !invocations_runs_of. cbn [trace].
        rewrite Hatt. apply runs_of_call.
        destruct (forallb ok (dataset_ids year)); reflexivity.
Qed.


Lemma dirs_map year ids :
  (∀ id, id ∈ ids → id ∈ dataset_ids year) →
  map (os_path_join output_directory) ids = map (λ id, "data/" +:+ id) ids.
Proof.
  induction ids as [|id rest IH]; intros Hsub; [reflexivity|].
  cbn [map]. rewrite IH.
  2:{ intros id' Hin. apply Hsub, list_elem_of_further, Hin. }
  destruct (dataset_output_dir year id) as [-> _]; [|reflexivity].
  apply Hsub, list_elem_of_here.
Qed.

Lemma dataset_effects_documented b year u p ids :
  (∀ id, id ∈ ids → id ∈ dataset_ids year) →
  flat_map (dataset_effects (λ id, cmd b year id u p)) ids
  = flat_map (λ id, [EvMakedirs ("data/" +:+ id);
                     EvRun (documented_subset_cmd b year u p id)]) ids.
Proof.
  intros Hsub. rewrite (dataset_effects_ext _ year _ Hsub).
  induction ids as [|id rest IH]; [reflexivity|].
  cbn [flat_map]. rewrite IH.
  2:{ intros id' Hin. apply Hsub, list_elem_of_further, Hin. }
  rewrite (cmd_documented b year id u p); [reflexivity|].
  apply Hsub, list_elem_of_here.
Qed.

Lemma elem_of_split {A} (pre post : list A) x : x ∈ pre ++ x :: post.
Proof. apply elem_of_app. right. apply list_elem_of_here. Qed.

Lemma snoc_not_nil {A} (l : list A) x : l ++ [x] ≠ [].
Proof. destruct l; discriminate. Qed.

(** An exception that leaves the call: the [KeyError] of a missing key,
    before anything was done, or the error with which the operating system
    refused a directory of a dataset of the year. *)
Lemma download_copernicus_raise_inv d year w e :
  (download_copernicus d year w).1 = Raise e →
  (∃ k, k ∈ ["lat_min"; "lat_max"; "lon_min"; "lon_max"] ∧ d !! k = None
        ∧ e = KeyError k ∧ (download_copernicus d year w).2 = w)
  ∨ (∃ id q,
       id ∈ dataset_ids year ∧ q ∈ ["data"; "data/" +:+ id]
       ∧ (q ∉ dirs w) ∧ mkdir_refused q = Some e).
Proof.
  intros Hraise.
  destruct (d !! "lat_min") as [la|] eqn:Ha;
    [destruct (d !! "lat_max") as [lb|] eqn:Hb;
     [destruct (d !! "lon_min") as [lc|] eqn:Hc;
      [destruct (d !! "lon_max") as [ld|] eqn:Hd|]|]|].
  2-5: left; destruct (download_copernicus_first_missing d year w)
         as (k & Hin & Hk & Hrun); [auto 6|];
       rewrite Hrun in Hraise |- *; simpl in *;
       exists k; repeat split; congruence.
  assert (Hbox : is_boundary_box d (mkBounds la lb lc ld)).
  { repeat split; assumption. }
  destruct (environ w !! "CMEMS_USERNAME") as [u|] eqn:Hu;
    [destruct (environ w !! "CMEMS_PASSWORD") as [p|] eqn:Hp|].
  2-3: rewrite (download_copernicus_no_credentials d _ year w Hbox) in Hraise
         by auto; discriminate.
  right.
  destruct (download_copernicus_cases d _ year w u p Hbox (conj Hu Hp))
    as [(Hres & _)
       |[(pre & id & post & _ & _ & _ & Hres & _)
        |(pre & id & post & e' & ds' & Hsplit & _ & Hres & Hmk & _)]];
    rewrite Hres in Hraise; try discriminate.
  injection Hraise as ->.
  destruct (make_chain_Some _ _ _ _ Hmk) as (q & Hq & Hnot & Hr).
  assert (Hin : id ∈ dataset_ids year).
  { rewrite Hsplit. apply elem_of_split. }
  destruct (dataset_output_dir year id Hin) as [_ Hchain].
  rewrite Hchain in Hq.
  exists id, q. split; [exact Hin|]. split; [exact Hq|]. split; [|exact Hr].
  intros Hq'. apply Hnot, elem_of_union. left. exact Hq'.
Qed.

(** C3: the datasets of a call are fixed by the year alone: for 2021 they
    are [cmems_mod_glo_phy_myint_0.083deg_P1D-m] and
    [cmems_mod_glo_bgc_my_0.25deg_P1D-m], for every other year
    [cmems_mod_glo_phy_my_0.083deg_P1D-m] and
    [cmems_mod_glo_bgc_my_0.25deg_P1D-m].  Every subprocess the call
    starts names one of them, in this order, in its [--dataset-id=]
    argument.  With the boundary box and the credentials in place the call
    works on these datasets in this order, on the first at least: the
    paths it hands to [os.makedirs] are [data/<dataset_id>] for them; a
    call that returns [True] has worked on exactly the datasets of the
    year and started exactly their commands; and it returns [True] when
    nothing stands in the way of the directories and every command exits
    with status zero. *)
Theorem dataset_ids_by_year year :
  let selected :=
    if bool_decide (year = 2021%Z)
    then ["cmems_mod_glo_phy_myint_0.083deg_P1D-m";
          "cmems_mod_glo_bgc_my_0.25deg_P1D-m"]
    else ["cmems_mod_glo_phy_my_0.083deg_P1D-m";
          "cmems_mod_glo_bgc_my_0.25deg_P1D-m"] in
  dataset_ids year = selected
  ∧ (∀ d w, ∃ ids cs,
       ids `prefix_of` selected
       ∧ invocations (download_copernicus d year w).2 = invocations w ++ cs
       ∧ Forall2 (λ id c, c !! 2%nat = Some ("--dataset-id=" +:+ id)) ids cs)
  ∧ (∀ d b w u p,
       is_boundary_box d b → has_credentials w u p →
       let c := λ id, cmd b year id u p in
       let r := download_copernicus d year w in
       ∃ ids,
         ids ≠ [] ∧ ids `prefix_of` selected
         ∧ makedirs_calls r.2
           = makedirs_calls w ++ map (λ id, "data/" +:+ id) ids
         ∧ (r.1 = Ok true →
            ids = selected
            ∧ invocations r.2 = invocations w ++ map c selected)
         ∧ (creatable w (flat_map (λ id, ["data"; "data/" +:+ id]) selected) →
            (∀ id, id ∈ selected → ∃ out, spawn (c id) = Exited 0 out) →
            r.1 = Ok true)).
Proof.
  intros selected.
  assert (Hsel : dataset_ids year = selected).
  { unfold dataset_ids, selected. destruct (Z.eqb_spec year 2021).
    - rewrite bool_decide_eq_true_2 by assumption. reflexivity.
    - rewrite bool_decide_eq_false_2 by assumption. reflexivity. }
  split; [exact Hsel|]. rewrite <- Hsel. clear Hsel selected. split.
  - intros d w.
    destruct (download_copernicus_commands d year w)
      as [Hnone|(b & u & p & ids & _ & _ & Hpre & Hinv)].
    + exists [], []. rewrite Hnone, app_nil_r.
      repeat split; [apply prefix_nil|constructor].
    + exists ids, (map (λ id, cmd b year id u p) ids).
      repeat split; [exact Hpre|exact Hinv|].
      clear. induction ids as [|id rest IH]; constructor;
        [reflexivity|exact IH].
  - intros d b w u p Hbox Hcred c r.
    set (ok := λ id, exits_zero (spawn (c id))).
    pose proof (download_copernicus_cases d b year w u p Hbox Hcred)
      as Hcases.
    cbv zeta in Hcases. fold c ok r in Hcases.
    assert (Hgood :
      creatable w (flat_map (λ id, ["data"; "data/" +:+ id])
                     (dataset_ids year)) →
      (∀ id, id ∈ dataset_ids year → ∃ out, spawn (c id) = Exited 0 out) →
      r.1 = Ok true).
    { intros Hfree Hall.
      assert (Hfree' : creatable w
                (flat_map
                   (λ id, path_chain "" (os_path_join output_directory id))
                   (dataset_ids year))).
      { rewrite (chain_flat_map year); [exact Hfree|]. auto. }
      pose proof (download_copernicus_trace d b year w u p Hbox Hcred Hfree')
        as Hrun.
      cbv zeta in Hrun. fold c ok r in Hrun. rewrite Hrun. cbn [fst].
      f_equal. apply forallb_elem_of. intros id Hin.
      apply exits_zero_spec, Hall, Hin. }
    destruct Hcases
      as [(Hres & Hall & _ & Hw)
         |[(pre & id & post & Hsplit & Hpre & Hid & Hres & Hw)
          |(pre & id & post & e & ds' & Hsplit & Hpre & Hres & _ & Hw)]].
    + exists (dataset_ids year).
      split; [apply dataset_ids_nonempty|]. split; [reflexivity|]. split.
      { rewrite Hw, !makedirs_calls_mkdirs_of. cbn [trace].
        rewrite mkdirs_of_call, (dirs_map year) by auto.
        f_equal. apply app_nil_r. }
      split; [|exact Hgood]. intros _. split; [reflexivity|].
      rewrite Hw, !invocations_runs_of. cbn [trace].
      apply runs_of_call. reflexivity.
    + exists (pre ++ [id]).
      split; [apply snoc_not_nil|]. split.
      { rewrite Hsplit. apply prefix_split_snoc. }
      split.
      { rewrite Hw, !makedirs_calls_mkdirs_of. cbn [trace].
        rewrite <- (app_nil_r (flat_map _ (pre ++ [id]))).
        rewrite mkdirs_of_call, (dirs_map year).
        - f_equal. apply app_nil_r.
        - intros x Hx. rewrite Hsplit. apply elem_of_split_l, Hx. }
      split; [|exact Hgood]. rewrite Hres. discriminate.
    + exists (pre ++ [id]).
      split; [apply snoc_not_nil|]. split.
      { rewrite Hsplit. apply prefix_split_snoc. }
      split.
      { rewrite Hw, !makedirs_calls_mkdirs_of. cbn [trace].
        rewrite mkdirs_of_call.
        change (mkdirs_of [EvLog INFO ("Downloading dataset: " +:+ id);
                           EvMakedirs (os_path_join output_directory id)])
          with (map (os_path_join output_directory) [id]).
        rewrite <- map_app, (dirs_map year); [reflexivity|].
        intros x Hx. rewrite Hsplit. apply elem_of_split_l, Hx. }
      split; [|exact Hgood]. rewrite Hres. discriminate.
Qed.


Lemma dirs_unchanged_of_present year (ds : gset string) ids :
  (∀ id, id ∈ ids → id ∈ dataset_ids year) →
  "data" ∈ ds → (∀ id, id ∈ ids → "data/" +:+ id ∈ ds) →
  ds ∪ list_to_set
         (flat_map (λ id, path_chain "" (os_path_join output_directory id)) ids)
  = ds.
Proof.
  intros Hsub Hdata Hthere.
  apply leibniz_equiv, (anti_symm (⊆)); [|apply union_subseteq_l].
  apply union_least; [reflexivity|].
  intros x Hx. apply elem_of_list_to_set in Hx.
  destruct (chain_elem_of year ids x Hsub Hx) as [->|(id & Hid & ->)]; auto.
Qed.

(** C7: with the boundary box and the credentials in place, what
    [download_copernicus] does outside the process is, for each dataset it
    processes and in the order of the datasets of the year: first
    [os.makedirs] on [data/<dataset_id>], then the [subset] command with
    the documented arguments in the documented order.  Nothing else
    follows, unless [os.makedirs] raises for the next dataset: then that
    call is the last effect and its error leaves the function, no command
    being run for that dataset.  The directory of every processed dataset
    is in the filesystem afterwards, no directory is lost, and when the
    directories were there already the filesystem is unchanged.  A call
    that returns has processed the first dataset at least, and all of them
    when it returns [True]; and it returns when nothing stands in the way
    of the directories. *)
Theorem subset_command_after_makedirs d b year w u p :
  is_boundary_box d b → has_credentials w u p →
  let r := download_copernicus d year w in
  ∃ processed tail,
    processed `prefix_of` dataset_ids year
    ∧ effects r.2 = effects w
        ++ flat_map (λ id, [EvMakedirs ("data/" +:+ id);
                            EvRun (documented_subset_cmd b year u p id)])
             processed
        ++ tail
    ∧ (tail = []
       ∨ ∃ id e,
           processed ++ [id] `prefix_of` dataset_ids year
           ∧ tail = [EvMakedirs ("data/" +:+ id)] ∧ r.1 = Raise e)
    ∧ (∀ res, r.1 = Ok res → tail = [] ∧ processed ≠ [])
    ∧ (r.1 = Ok true → processed = dataset_ids year)
    ∧ (∀ id, id ∈ processed → "data/" +:+ id ∈ dirs r.2)
    ∧ dirs w ⊆ dirs r.2
    ∧ ("data" ∈ dirs w → (∀ id, id ∈ processed → "data/" +:+ id ∈ dirs w) →
       dirs r.2 = dirs w)
    ∧ (creatable w
         (flat_map (λ id, ["data"; "data/" +:+ id]) (dataset_ids year)) →
       ∃ res, r.1 = Ok res).
Proof.
  intros Hbox Hcred r.
  set (c := λ id, cmd b year id u p).
  set (ok := λ id, exits_zero (spawn (c id))).
  set (chain := λ id, path_chain "" (os_path_join output_directory id)).
  pose proof (download_copernicus_cases d b year w u p Hbox Hcred) as Hcases.
  cbv zeta in Hcases. fold c ok chain r in Hcases.
  destruct Hcases
    as [(Hres & Hall & _ & Hw)
       |[(pre & id & post & Hsplit & Hpre & Hid & Hres & Hw)
        |(pre & id & post & e & ds' & Hsplit & Hpre & Hres & Hmk & Hw)]].
  - exists (dataset_ids year), [].
    split; [reflexivity|]. split.
    { rewrite Hw, !effects_effects_of. cbn [trace].
      rewrite effects_of_call. unfold c.
      rewrite dataset_effects_documented by auto. reflexivity. }
    split; [left; reflexivity|]. split.
    { intros _ _. split; [reflexivity|apply dataset_ids_nonempty]. }
    split; [reflexivity|]. rewrite Hw. cbn [dirs]. split.
    { intros id Hin. apply elem_of_union. right. apply elem_of_list_to_set.
      apply (chain_elem_of_dir year); auto. }
    split; [apply union_subseteq_l|]. split.
    { intros Hdata Hthere. apply (dirs_unchanged_of_present year); auto. }
    intros _. eauto.
  - assert (Hsub : ∀ x, x ∈ pre ++ [id] → x ∈ dataset_ids year).
    { intros x Hx. rewrite Hsplit. apply elem_of_split_l, Hx. }
    exists (pre ++ [id]), [].
    split; [rewrite Hsplit; apply prefix_split_snoc|]. split.
    { rewrite Hw, !effects_effects_of. cbn [trace].
      rewrite <- (app_nil_r (flat_map (dataset_trace c) (pre ++ [id]))).
      rewrite effects_of_call. unfold c.
      rewrite dataset_effects_documented by exact Hsub. reflexivity. }
    split; [left; reflexivity|]. split.
    { intros _ _. split; [reflexivity|apply snoc_not_nil]. }
    split; [rewrite Hres; discriminate|]. rewrite Hw. cbn [dirs]. split.
    { intros x Hx. apply elem_of_union. right. apply elem_of_list_to_set.
      apply (chain_elem_of_dir year); auto. }
    split; [apply union_subseteq_l|]. split.
    { intros Hdata Hthere. apply (dirs_unchanged_of_present year); auto. }
    intros _. eauto.
  - assert (Hsub : ∀ x, x ∈ pre → x ∈ dataset_ids year).
    { intros x Hx. rewrite Hsplit. apply elem_of_app. left. exact Hx. }
    assert (Hin : id ∈ dataset_ids year).
    { rewrite Hsplit. apply elem_of_split. }
    destruct (dataset_output_dir year id Hin) as [Hdir Hchain].
    destruct (make_chain_frame _ _ _ _ Hmk) as [Hkeep Hnew].
    exists pre, [EvMakedirs ("data/" +:+ id)].
    split; [rewrite Hsplit; apply prefix_split|]. split.
    { rewrite Hw, !effects_effects_of. cbn [trace].
      rewrite effects_of_call. unfold c.
      rewrite dataset_effects_documented by exact Hsub.
      rewrite Hdir. reflexivity. }
    split.
    { right. exists id, e. split; [rewrite Hsplit; apply prefix_split_snoc|].
      split; [reflexivity|exact Hres]. }
    split; [intros res Hres'; rewrite Hres in Hres'; discriminate|].
    split; [rewrite Hres; discriminate|]. rewrite Hw. cbn [dirs]. split.
    { intros x Hx. apply Hkeep, elem_of_union. right.
      apply elem_of_list_to_set, (chain_elem_of_dir year); auto. }
    split.
    { intros x Hx. apply Hkeep, elem_of_union. left. exact Hx. }
    split.
    { intros Hdata Hthere.
      rewrite (dirs_unchanged_of_present year) in Hmk, Hkeep, Hnew by auto.
      apply leibniz_equiv, (anti_symm (⊆)); [|exact Hkeep].
      intros x Hx. destruct (Hnew x Hx) as [Hx'|[Hx' Hfree]]; [exact Hx'|].
      destruct (make_chain_Some _ _ _ _ Hmk) as (q & Hq & Hnot & Hr).
      unfold chain in Hx', Hq. rewrite Hchain in Hx', Hq.
      apply elem_of_cons in Hx' as [->|Hx']; [exact Hdata|].
      apply elem_of_cons in Hx' as [->|Hx'];
        [|apply elem_of_nil in Hx'; contradiction].
      exfalso.
      apply elem_of_cons in Hq as [->|Hq]; [contradiction|].
      apply elem_of_cons in Hq as [->|Hq];
        [|apply elem_of_nil in Hq; contradiction].
      rewrite Hfree in Hr. discriminate. }
    intros Hfree. exfalso.
    eapply (creatable_no_refusal w); [| |exact Hmk].
    + eapply creatable_sub; [exact Hfree|].
      intros q Hq. unfold chain in Hq. rewrite Hchain in Hq.
      apply list_elem_of_In, in_flat_map. exists id.
      split; apply list_elem_of_In; assumption.
    + apply union_subseteq_l.
Qed.

(** C10: with the boundary box and the credentials in place, when
    [download_copernicus] returns [False] the command of a dataset did not
    exit with status zero while those of the earlier datasets did; the
    directory [data/<dataset_id>] of that dataset and of every earlier
    dataset of the year is in the filesystem, each one made sure of just
    before the subprocess of its dataset was started. *)
Theorem failed_download_leaves_directories d b year w u p :
  is_boundary_box d b → has_credentials w u p →
  let c := λ id, cmd b year id u p in
  let r := download_copernicus d year w in
  r.1 = Ok false →
  ∃ pre id post,
    dataset_ids year = pre ++ id :: post
    ∧ (∀ id', id' ∈ pre → ∃ out, spawn (c id') = Exited 0 out)
    ∧ (¬ ∃ out, spawn (c id) = Exited 0 out)
    ∧ (∀ id', id' ∈ pre ++ [id] → "data/" +:+ id' ∈ dirs r.2)
    ∧ effects r.2 = effects w
        ++ flat_map (λ id', [EvMakedirs ("data/" +:+ id'); EvRun (c id')])
             (pre ++ [id]).
Proof.
  intros Hbox Hcred c r Hfalse.
  set (ok := λ id, exits_zero (spawn (c id))).
  pose proof (download_copernicus_cases d b year w u p Hbox Hcred) as Hcases.
  cbv zeta in Hcases. fold c ok r in Hcases.
  destruct Hcases
    as [(Hres & _)
       |[(pre & id & post & Hsplit & Hpre & Hid & Hres & Hw)
        |(pre & id & post & e & ds' & _ & _ & Hres & _)]];
    rewrite Hres in Hfalse; try discriminate.
  assert (Hsub : ∀ x, x ∈ pre ++ [id] → x ∈ dataset_ids year).
  { intros x Hx. rewrite Hsplit. apply elem_of_split_l, Hx. }
  exists pre, id, post. split; [exact Hsplit|]. split.
  { intros id' Hin. apply exits_zero_spec, Hpre, Hin. }
  split.
  { intros Hz. apply exits_zero_spec in Hz. fold (ok id) in Hz. congruence. }
  rewrite Hw. cbn [dirs]. split.
  - intros x Hx. apply elem_of_union. right. apply elem_of_list_to_set.
    apply (chain_elem_of_dir year); auto.
  - rewrite !effects_effects_of. cbn [trace].
    rewrite <- (app_nil_r (flat_map (dataset_trace c) (pre ++ [id]))).
    rewrite effects_of_call, (dataset_effects_ext c year) by exact Hsub.
    rewrite app_nil_r. reflexivity.
Qed.


(** *** The loop of [run] *)

Lemma for_each_cons_step y ys w :
  for_each (y :: ys) run_year w
  = match download_copernicus boundary_box y w with
    | (Ok true, w') => for_each ys run_year w'
    | (Ok false, w') =>
        (Raise (Exception ("Failed to download Copernicus data for "
                           +:+ str_int y)), w')
    | (Raise e, w') => (Raise e, w')
    end.
Proof.
  cbn [for_each]. unfold bind at 1, run_year, bind at 1.
  destruct (download_copernicus boundary_box y w) as [[[|]|e] w'];
    reflexivity.
Qed.

Lemma for_each_all_succeed ys w w1 :
  all_succeed ys w w1 → for_each ys run_year w = (Ok tt, w1).
Proof.
  induction 1 as [w|y ys w w1 w2 Hcall _ IH]; [reflexivity|].
  rewrite for_each_cons_step, Hcall. exact IH.
Qed.

Lemma for_each_first_false pre y post w w1 w2 :
  all_succeed pre w w1 →
  download_copernicus boundary_box y w1 = (Ok false, w2) →
  for_each (pre ++ y :: post) run_year w
  = (Raise (Exception ("Failed to download Copernicus data for "
                       +:+ str_int y)), w2).
Proof.
  induction 1 as [w|x xs w w1 w1' Hcall _ IH]; intros Hfail.
  - cbn [app]. rewrite for_each_cons_step, Hfail. reflexivity.
  - change ((x :: xs) ++ y :: post) with (x :: (xs ++ y :: post)).
    rewrite for_each_cons_step, Hcall. apply IH, Hfail.
Qed.

Lemma for_each_first_raise pre y post w w1 w2 e :
  all_succeed pre w w1 →
  download_copernicus boundary_box y w1 = (Raise e, w2) →
  for_each (pre ++ y :: post) run_year w = (Raise e, w2).
Proof.
  induction 1 as [w|x xs w w1 w1' Hcall _ IH]; intros Hfail.
  - cbn [app]. rewrite for_each_cons_step, Hfail. reflexivity.
  - change ((x :: xs) ++ y :: post) with (x :: (xs ++ y :: post)).
    rewrite for_each_cons_step, Hcall. apply IH, Hfail.
Qed.

(** The three ways the calls for a list of years go. *)
Lemma all_succeed_or_first_failure ys :
  ∀ w,
    (∃ w1, all_succeed ys w w1)
    ∨ (∃ pre y post w1 w2,
         ys = pre ++ y :: post ∧ all_succeed pre w w1
         ∧ download_copernicus boundary_box y w1 = (Ok false, w2))
    ∨ (∃ pre y post w1 w2 e,
         ys = pre ++ y :: post ∧ all_succeed pre w w1
         ∧ download_copernicus boundary_box y w1 = (Raise e, w2)).
Proof.
  induction ys as [|y ys IH]; intros w.
  - left. exists w. constructor.
  - destruct (download_copernicus boundary_box y w) as [[[|]|e] w'] eqn:Hcall.
    + destruct (IH w')
        as [(w1 & Hall)
           |[(pre & y' & post & w1 & w2 & -> & Hall & Hfail)
            |(pre & y' & post & w1 & w2 & e & -> & Hall & Hfail)]].
      * left. exists w1. econstructor; eassumption.
      * right. left. exists (y :: pre), y', post, w1, w2.
        split; [reflexivity|]. split; [econstructor; eassumption|exact Hfail].
      * right. right. exists (y :: pre), y', post, w1, w2, e.
        split; [reflexivity|]. split; [econstructor; eassumption|exact Hfail].
    + right. left. exists [], y, ys, w, w'.
      split; [reflexivity|]. split; [constructor|exact Hcall].
    + right. right. exists [], y, ys, w, w', e.
      split; [reflexivity|]. split; [constructor|exact Hcall].
Qed.

Lemma run_unfold w :
  run w
  = match for_each years run_year
            (emit (EvLog INFO "Starting Copernicus data download module") w)
    with
    | (Ok _, w') =>
        (Ok tt, emit (EvLog INFO "Completed Copernicus data download module") w')
    | (Raise e, w') => (Raise e, w')
    end.
Proof.
  unfold run, bind, logging_info. cbv beta iota.
  destruct (for_each years run_year _) as [[[]|e] w']; reflexivity.
Qed.

(** C5: [run] goes through the years 2005, 2006, 2012, 2013, 2015, 2021 in
    this order and calls [download_copernicus] for each with the boundary
    box [{lat_min: 24.0, lat_max: 31.0, lon_min: -92.0, lon_max: -86.0}].
    When the call succeeds for every year, [run] returns without an
    exception.  When the call of a year returns [False] after those of the
    earlier years succeeded, [run] raises an exception whose message
    carries that year, in the world that call left: no later year was
    attempted.  One of these happens, unless [os.makedirs] raises in the
    call of a year: then that error leaves [run], and no later year was
    attempted either. *)
Theorem run_stops_at_first_failing_year w :
  years = [2005; 2006; 2012; 2013; 2015; 2021]%Z
  ∧ is_boundary_box boundary_box
      (mkBounds 24.0%float 31.0%float (-92.0)%float (-86.0)%float)
  ∧ size boundary_box = 4%nat
  ∧ let w0 := emit (EvLog INFO "Starting Copernicus data download module") w in
    (∀ w1,
       all_succeed years w0 w1 →
       run w = (Ok tt,
                emit (EvLog INFO "Completed Copernicus data download module")
                  w1))
    ∧ (∀ pre y post w1 w2,
         years = pre ++ y :: post →
         all_succeed pre w0 w1 →
         download_copernicus boundary_box y w1 = (Ok false, w2) →
         run w = (Raise (Exception ("Failed to download Copernicus data for "
                                    +:+ str_int y)), w2))
    ∧ ((∃ w1, all_succeed years w0 w1)
       ∨ (∃ pre y post w1 w2,
            years = pre ++ y :: post
            ∧ all_succeed pre w0 w1
            ∧ download_copernicus boundary_box y w1 = (Ok false, w2))
       ∨ (∃ pre y post w1 w2 e q,
            years = pre ++ y :: post
            ∧ all_succeed pre w0 w1
            ∧ download_copernicus boundary_box y w1 = (Raise e, w2)
            ∧ mkdir_refused q = Some e
            ∧ run w = (Raise e, w2))).
Proof.
  split; [reflexivity|]. split; [exact boundary_box_keys|].
  split; [reflexivity|]. intros w0. split; [|split].
  - intros w1 Hall. rewrite run_unfold. fold w0.
    rewrite (for_each_all_succeed years w0 w1 Hall). reflexivity.
  - intros pre y post w1 w2 Hsplit Hall Hfail. rewrite run_unfold. fold w0.
    rewrite Hsplit, (for_each_first_false pre y post w0 w1 w2 Hall Hfail).
    reflexivity.
  - destruct (all_succeed_or_first_failure years w0)
      as [Hok|[Hfalse|(pre & y & post & w1 & w2 & e & Hsplit & Hall & Hfail)]];
      [left; exact Hok|right; left; exact Hfalse|].
    right. right.
    assert (Hq : ∃ q, mkdir_refused q = Some e).
    { destruct (download_copernicus_raise_inv boundary_box y w1 e)
        as [(k & Hk & Hnone & _)|(id & q & _ & _ & _ & Hq)].
      - rewrite Hfail. reflexivity.
      - exfalso. repeat (apply elem_of_cons in Hk as [->|Hk]; [discriminate|]).
        apply elem_of_nil in Hk. contradiction.
      - eauto. }
    destruct Hq as [q Hq]. exists pre, y, post, w1, w2, e, q.
    split; [exact Hsplit|]. split; [exact Hall|]. split; [exact Hfail|].
    split; [exact Hq|]. rewrite run_unfold. fold w0.
    rewrite Hsplit at 1.
    rewrite (for_each_first_raise pre y post w0 w1 w2 e Hall Hfail).
    reflexivity.
Qed.

(** C8: when the [describe] query for the dataset exits with status zero and
    its output parses to a mapping whose [dimensions] entry, if there is
    one, is a mapping, [dataset_has_depth] returns a boolean, and it returns
    [True] exactly when ["depth"] is a key of the dimensions mapping.  When
    the query exits with another status or cannot be run, or when its
    output does not parse, or parses to something that is not a mapping,
    an exception leaves [dataset_has_depth] and no boolean is returned. *)
Theorem dataset_has_depth_spec dataset_id w :
  let r := dataset_has_depth dataset_id w in
  (∀ out metadata,
     spawn (describe_cmd dataset_id) = Exited 0 out →
     json_parse out = Some (PyDict metadata) →
     (∀ dimensions,
        metadata !! "dimensions" = Some (PyDict dimensions) →
        (r.1 = Ok true ∨ r.1 = Ok false)
        ∧ (r.1 = Ok true ↔ is_Some (dimensions !! "depth")))
     ∧ (metadata !! "dimensions" = None → r.1 = Ok false))
  ∧ (∀ rc out,
       spawn (describe_cmd dataset_id) = Exited rc out → rc ≠ 0%Z →
       r.1 = Raise (CalledProcessError rc (describe_cmd dataset_id)))
  ∧ (∀ e, spawn (describe_cmd dataset_id) = SpawnError e → r.1 = Raise e)
  ∧ (∀ out,
       spawn (describe_cmd dataset_id) = Exited 0 out →
       json_parse out = None →
       r.1 = Raise (JSONDecodeError out))
  ∧ (∀ out v,
       spawn (describe_cmd dataset_id) = Exited 0 out →
       json_parse out = Some v →
       (∀ metadata, v ≠ PyDict metadata) →
       ∃ e, r.1 = Raise e).
Proof.
  intros r. subst r.
  unfold dataset_has_depth, bind, subprocess_run, json_loads, py_get,
    py_contains, ret, raise.
  split; [|split; [|split; [|split]]].
  - intros out metadata Hrun Hparse. rewrite Hrun; simpl. rewrite Hparse.
    split.
    + intros dimensions Hdim. rewrite Hdim. split.
      * destruct (bool_decide (is_Some (dimensions !! "depth"))); auto.
      * split.
        -- intros [= Hb]. apply bool_decide_eq_true in Hb. exact Hb.
        -- intros Hs. rewrite bool_decide_eq_true_2 by exact Hs. reflexivity.
    + intros Hnone. rewrite Hnone.
      rewrite bool_decide_eq_false_2; [reflexivity|].
      rewrite lookup_empty. intros [? [=]].
  - intros rc out Hrun Hrc. rewrite Hrun.
    destruct (Z.eqb_spec rc 0); [contradiction|reflexivity].
  - intros e Hrun. rewrite Hrun. reflexivity.
  - intros out Hrun Hparse. rewrite Hrun; simpl. rewrite Hparse. reflexivity.
  - intros out v Hrun Hparse Hnot. rewrite Hrun; simpl. rewrite Hparse.
    destruct v; try (eexists; reflexivity).
    exfalso. eapply Hnot. reflexivity.
Qed.


(** ** Further properties of [download_copernicus] *)

Lemma first_failure_unique (ok : string → bool) pre id post pre' id' post' :
  pre ++ id :: post = pre' ++ id' :: post' →
  (∀ x, x ∈ pre → ok x = true) → ok id = false →
  (∀ x, x ∈ pre' → ok x = true) → ok id' = false →
  pre = pre' ∧ id = id'.
Proof.
  intros Heq Hpre Hid Hpre' Hid'.
  pose proof (attempted_first_failure ok pre id post Hpre Hid) as H1.
  pose proof (attempted_first_failure ok pre' id' post' Hpre' Hid') as H2.
  rewrite Heq, H2 in H1. apply app_inj_tail in H1 as [-> ->]. auto.
Qed.

Lemma errors_of_ok_datasets c ids :
  (∀ id, id ∈ ids → exits_zero (spawn (c id)) = true) →
  errors_of (flat_map (dataset_trace c) ids) = [].
Proof.
  intros Hall.
  rewrite <- (attempted_all (λ id, exits_zero (spawn (c id))) ids Hall).
  apply errors_of_all_ok; [|exact Hall].
  intros id. apply (exits_zero_failure_message c).
Qed.

Lemma errors_of_failed_call c pre id t s m :
  (∀ id', id' ∈ pre → exits_zero (spawn (c id')) = true) →
  failure_message id (c id) = Some m →
  errors_of (t ++ [EvLog INFO s] ++ flat_map (dataset_trace c) (pre ++ [id]))
  = errors_of t ++ [m].
Proof.
  intros Hpre Hm. rewrite !errors_of_app, flat_map_app, errors_of_app.
  rewrite (errors_of_ok_datasets c pre Hpre).
  change (flat_map (dataset_trace c) [id]) with (dataset_trace c id ++ []).
  rewrite app_nil_r, errors_of_dataset_trace, Hm. reflexivity.
Qed.

Lemma failure_message_Some c (id : string) :
  exits_zero (spawn (c id)) = false → ∃ m, failure_message id (c id) = Some m.
Proof.
  intros Hid. destruct (failure_message id (c id)) as [m|] eqn:Hm; [eauto|].
  apply failure_message_None in Hm. congruence.
Qed.

(** What a call leaves alone, on every path through it. *)
Lemma download_copernicus_keeps d year w :
  let r := download_copernicus d year w in
  environ r.2 = environ w
  ∧ trace w `prefix_of` trace r.2
  ∧ dirs w ⊆ dirs r.2
  ∧ dirs r.2 ⊆ dirs w ∪ {["data"]}
               ∪ list_to_set ((λ id, "data/" +:+ id) <$> dataset_ids year).
Proof.
  intros r. subst r.
  destruct (d !! "lat_min") as [la|] eqn:Ha;
    [destruct (d !! "lat_max") as [lb|] eqn:Hb;
     [destruct (d !! "lon_min") as [lc|] eqn:Hc;
      [destruct (d !! "lon_max") as [ld|] eqn:Hd|]|]|].
  2-5: destruct (download_copernicus_first_missing d year w)
         as (k & _ & _ & Hrun); [auto 6|];
       rewrite Hrun; simpl;
       repeat split; [reflexivity|reflexivity|];
       intros x Hx; apply elem_of_union; left; apply elem_of_union; left;
       exact Hx.
  assert (Hbox : is_boundary_box d (mkBounds la lb lc ld)).
  { repeat split; assumption. }
  destruct (environ w !! "CMEMS_USERNAME") as [u|] eqn:Hu;
    [destruct (environ w !! "CMEMS_PASSWORD") as [p|] eqn:Hp|].
  2-3: rewrite (download_copernicus_no_credentials d _ year w Hbox) by auto;
       simpl; repeat split;
       [eexists; reflexivity|reflexivity|];
       intros x Hx; apply elem_of_union; left; apply elem_of_union; left;
       exact Hx.
  assert (Hnew : ∀ ids x,
            (∀ id, id ∈ ids → id ∈ dataset_ids year) →
            x ∈ flat_map
                  (λ id, path_chain "" (os_path_join output_directory id)) ids →
            x ∈ dirs w ∪ {["data"]}
                ∪ list_to_set ((λ id, "data/" +:+ id) <$> dataset_ids year)).
  { intros ids x Hsub Hx.
    destruct (chain_elem_of year ids x Hsub Hx) as [->|(id & Hid & ->)].
    - apply elem_of_union; left; apply elem_of_union; right.
      apply elem_of_singleton. reflexivity.
    - apply elem_of_union; right. apply elem_of_list_to_set.
      apply list_elem_of_fmap. exists id. split; [reflexivity|].
      apply Hsub, Hid. }
  assert (Hold : ∀ x, x ∈ dirs w →
            x ∈ dirs w ∪ {["data"]}
                ∪ list_to_set ((λ id, "data/" +:+ id) <$> dataset_ids year)).
  { intros x Hx. apply elem_of_union; left; apply elem_of_union; left.
    exact Hx. }
  destruct (download_copernicus_cases d _ year w u p Hbox (conj Hu Hp))
    as [(_ & _ & _ & Hw)
       |[(pre & id & post & Hsplit & _ & _ & _ & Hw)
        |(pre & id & post & e & ds' & Hsplit & _ & _ & Hmk & Hw)]];
    rewrite Hw; cbn [environ dirs trace].
  - split; [reflexivity|]. split; [eexists; reflexivity|].
    split; [apply union_subseteq_l|].
    intros x Hx. apply elem_of_union in Hx as [Hx|Hx]; [auto|].
    apply elem_of_list_to_set in Hx. apply (Hnew (dataset_ids year)); auto.
  - split; [reflexivity|]. split; [eexists; reflexivity|].
    split; [apply union_subseteq_l|].
    intros x Hx. apply elem_of_union in Hx as [Hx|Hx]; [auto|].
    apply elem_of_list_to_set in Hx. apply (Hnew (pre ++ [id])); [|exact Hx].
    intros id' Hin. rewrite Hsplit. apply elem_of_split_l, Hin.
  - destruct (make_chain_frame _ _ _ _ Hmk) as [Hsub Hq].
    split; [reflexivity|]. split; [eexists; reflexivity|]. split.
    + intros x Hx. apply Hsub, elem_of_union. left. exact Hx.
    + intros x Hx. destruct (Hq x Hx) as [Hx'|[Hx' _]].
      * apply elem_of_union in Hx' as [Hx'|Hx']; [auto|].
        apply elem_of_list_to_set in Hx'. apply (Hnew pre); [|exact Hx'].
        intros id' Hin. rewrite Hsplit. apply elem_of_app. left. exact Hin.
      * apply (Hnew [id]).
        -- intros id' Hin. apply list_elem_of_singleton in Hin as ->.
           rewrite Hsplit. apply elem_of_split.
        -- cbn [flat_map]. rewrite app_nil_r. exact Hx'.
Qed.

(** X1: an exception leaves [download_copernicus] in two ways only.  It is
    the [KeyError] of a boundary-box key that the dict lacks, and then
    nothing was done; or it is the error with which the operating system
    refused to create [data] or [data/<dataset_id>] for a dataset of the
    year, [os.makedirs] being called before the [try] block, and then the
    call of [os.makedirs] for that dataset is the last thing the call
    did.  Every error inside the [try] block ends in a returned [False]
    instead. *)
Theorem download_copernicus_escaping_exceptions d year w e :
  let r := download_copernicus d year w in
  r.1 = Raise e →
  (∃ k, k ∈ ["lat_min"; "lat_max"; "lon_min"; "lon_max"] ∧ d !! k = None
        ∧ e = KeyError k ∧ r.2 = w)
  ∨ (∃ id q t,
       id ∈ dataset_ids year ∧ q ∈ ["data"; "data/" +:+ id]
       ∧ (q ∉ dirs w) ∧ mkdir_refused q = Some e
       ∧ trace r.2 = trace w ++ t ++ [EvMakedirs ("data/" +:+ id)]
       ∧ (∀ l, EvRun l ∈ t →
            ∃ id', id' ∈ dataset_ids year ∧ id' ≠ id
                   ∧ l !! 2%nat = Some ("--dataset-id=" +:+ id'))).
Proof.
  intros r Hraise. subst r.
  destruct (d !! "lat_min") as [la|] eqn:Ha;
    [destruct (d !! "lat_max") as [lb|] eqn:Hb;
     [destruct (d !! "lon_min") as [lc|] eqn:Hc;
      [destruct (d !! "lon_max") as [ld|] eqn:Hd|]|]|].
  2-5: left; destruct (download_copernicus_first_missing d year w)
         as (k & Hin & Hk & Hrun); [auto 6|];
       rewrite Hrun in Hraise |- *; simpl in *;
       exists k; repeat split; congruence.
  assert (Hbox : is_boundary_box d (mkBounds la lb lc ld)).
  { repeat split; assumption. }
  destruct (environ w !! "CMEMS_USERNAME") as [u|] eqn:Hu;
    [destruct (environ w !! "CMEMS_PASSWORD") as [p|] eqn:Hp|].
  2-3: rewrite (download_copernicus_no_credentials d _ year w Hbox) in Hraise
         by auto; discriminate.
  right.
  destruct (download_copernicus_cases d _ year w u p Hbox (conj Hu Hp))
    as [(Hres & _)
       |[(pre & id & post & _ & _ & _ & Hres & _)
        |(pre & id & post & e' & ds' & Hsplit & _ & Hres & Hmk & Hw)]];
    rewrite Hres in Hraise; try discriminate.
  injection Hraise as ->.
  destruct (make_chain_Some _ _ _ _ Hmk) as (q & Hq & Hnot & Hr).
  assert (Hin : id ∈ dataset_ids year).
  { rewrite Hsplit. apply elem_of_split. }
  destruct (dataset_output_dir year id Hin) as [Hdir Hchain].
  rewrite Hchain in Hq.
  set (c := λ id, cmd (mkBounds la lb lc ld) year id u p) in *.
  exists id, q,
    ([EvLog INFO ("Starting Copernicus data download for " +:+ str_int year)]
     ++ flat_map (dataset_trace c) pre
     ++ [EvLog INFO ("Downloading dataset: " +:+ id)]).
  split; [exact Hin|]. split; [exact Hq|]. split.
  { intros Hq'. apply Hnot, elem_of_union. left. exact Hq'. }
  split; [exact Hr|]. split.
  { rewrite Hw. cbn [trace]. rewrite Hdir, <- !app_assoc. reflexivity. }
  intros l Hl.
  assert (Hl' : l ∈ runs_of
                      ([EvLog INFO ("Starting Copernicus data download for "
                                    +:+ str_int year)]
                       ++ flat_map (dataset_trace c) pre
                       ++ [EvLog INFO ("Downloading dataset: " +:+ id)])).
  { unfold runs_of. apply list_elem_of_omap. exists (EvRun l).
    split; [exact Hl|reflexivity]. }
  rewrite !runs_of_app, runs_of_dataset_traces in Hl'.
  change (runs_of [EvLog INFO _]) with (@nil (list string)) in Hl'.
  cbn [app] in Hl'. rewrite app_nil_r in Hl'.
  apply list_elem_of_fmap in Hl' as (id' & -> & Hid').
  exists id'. split; [rewrite Hsplit; apply elem_of_app; left; exact Hid'|].
  split; [|reflexivity].
  intros ->.
  pose proof (dataset_ids_NoDup year) as Hnd. rewrite Hsplit in Hnd.
  apply NoDup_app in Hnd as (_ & Hdisj & _).
  apply (Hdisj id Hid'), list_elem_of_here.
Qed.

(** X2: keys other than the four of the boundary box are not looked at. *)
Theorem download_copernicus_ignores_other_keys d d' year w :
  (∀ k, k ∈ ["lat_min"; "lat_max"; "lon_min"; "lon_max"] → d !! k = d' !! k) →
  download_copernicus d year w = download_copernicus d' year w.
Proof.
  intros Hsame. unfold download_copernicus, dict_getitem.
  rewrite (Hsame "lat_min") by apply list_elem_of_here.
  rewrite (Hsame "lat_max")
    by (apply list_elem_of_further, list_elem_of_here).
  rewrite (Hsame "lon_min")
    by (do 2 apply list_elem_of_further; apply list_elem_of_here).
  rewrite (Hsame "lon_max")
    by (do 3 apply list_elem_of_further; apply list_elem_of_here).
  reflexivity.
Qed.

(** X4: what a call leaves alone, whatever its arguments: the environment is
    unchanged, the trace only gets longer, no directory disappears, and the
    only directories that can appear are [data] and [data/<dataset_id>] for
    the datasets of the year. *)
Theorem download_copernicus_frame d year w :
  let r := download_copernicus d year w in
  environ r.2 = environ w
  ∧ trace w `prefix_of` trace r.2
  ∧ dirs w ⊆ dirs r.2
  ∧ dirs r.2 ⊆ dirs w ∪ {["data"]}
               ∪ list_to_set ((λ id, "data/" +:+ id) <$> dataset_ids year).
Proof. exact (download_copernicus_keeps d year w). Qed.

(** X5: with the boundary box in the dict, a call that returns [True] has
    logged nothing at level [ERROR], and a call that returns [False] has
    logged exactly one [ERROR] record. *)
Theorem download_copernicus_false_iff_error_logged d b year w :
  is_boundary_box d b →
  let r := download_copernicus d year w in
  (r.1 = Ok true → error_logs r.2 = error_logs w)
  ∧ (r.1 = Ok false → ∃ m, error_logs r.2 = error_logs w ++ [m]).
Proof.
  intros Hbox r. subst r. unfold error_logs.
  destruct (environ w !! "CMEMS_USERNAME") as [u|] eqn:Hu;
    [destruct (environ w !! "CMEMS_PASSWORD") as [p|] eqn:Hp|].
  2-3: rewrite (download_copernicus_no_credentials d _ year w Hbox) by auto;
       simpl; split; [discriminate|]; intros _;
       eexists; rewrite errors_of_app; reflexivity.
  pose proof (download_copernicus_cases d b year w u p Hbox (conj Hu Hp))
    as Hcases.
  cbv zeta in Hcases.
  set (c := λ id, cmd b year id u p) in Hcases.
  destruct (download_copernicus d year w) as [res w'].
  cbn [fst snd] in Hcases |- *.
  destruct Hcases
    as [(-> & Hall & _ & ->)
       |[(pre & id & post & _ & Hpre & Hid & -> & ->)
        |(pre & id & post & e & ds' & _ & _ & -> & _)]].
  - split; [intros _|discriminate]. cbn [trace].
    rewrite errors_of_call, (errors_of_ok_datasets c _ Hall).
    apply app_nil_r.
  - split; [discriminate|intros _]. cbn [trace].
    destruct (failure_message_Some c id Hid) as [m Hm].
    exists m. apply errors_of_failed_call; assumption.
  - split; discriminate.
Qed.

(** X6: the [ERROR] record of a call that returns [False] at a dataset: for a
    non-zero exit status, and for a [CalledProcessError] raised when
    spawning, it is the record of the first handler; for any other
    exception it is the record of the second handler.  Each names the
    dataset and carries the text of the exception. *)
Theorem failed_dataset_error_message d b year w u p pre id post :
  is_boundary_box d b → has_credentials w u p →
  let c := λ id, cmd b year id u p in
  let r := download_copernicus d year w in
  dataset_ids year = pre ++ id :: post →
  (∀ id', id' ∈ pre → ∃ out, spawn (c id') = Exited 0 out) →
  r.1 = Ok false →
  (∀ rc out,
     spawn (c id) = Exited rc out → rc ≠ 0%Z →
     error_logs r.2
     = error_logs w
       ++ ["Error downloading dataset " +:+ id +:+ ": "
           +:+ str_exc (CalledProcessError rc (c id))])
  ∧ (∀ rc' c',
       spawn (c id) = SpawnError (CalledProcessError rc' c') →
       error_logs r.2
       = error_logs w
         ++ ["Error downloading dataset " +:+ id +:+ ": "
             +:+ str_exc (CalledProcessError rc' c')])
  ∧ (∀ e,
       spawn (c id) = SpawnError e →
       (∀ rc' c', e ≠ CalledProcessError rc' c') →
       error_logs r.2
       = error_logs w
         ++ ["Unexpected error downloading dataset " +:+ id +:+ ": "
             +:+ str_exc e]).
Proof.
  intros Hbox Hcred c r Hsplit Hpre Hfalse. unfold error_logs.
  set (ok := λ id, exits_zero (spawn (c id))).
  assert (Hpre' : ∀ id', id' ∈ pre → ok id' = true).
  { intros id' Hin. apply exits_zero_spec, Hpre, Hin. }
  assert (Hgen : ∀ m, ok id = false → failure_message id (c id) = Some m →
            errors_of (trace r.2) = errors_of (trace w) ++ [m]).
  { intros m Hid Hm.
    pose proof (download_copernicus_cases d b year w u p Hbox Hcred)
      as Hcases.
    cbv zeta in Hcases. fold c ok r in Hcases.
    destruct Hcases
      as [(Hres & _)
         |[(pre' & id' & post' & Hsplit' & Hpre'' & Hid' & _ & Hw)
          |(pre' & id' & post' & e & ds' & _ & _ & Hres & _)]];
      [rewrite Hres in Hfalse; discriminate| |
       rewrite Hres in Hfalse; discriminate].
    rewrite Hsplit in Hsplit'.
    destruct (first_failure_unique ok _ _ _ _ _ _ Hsplit' Hpre' Hid Hpre'' Hid')
      as [<- <-].
    rewrite Hw. cbn [trace]. apply errors_of_failed_call; assumption. }
  split; [|split].
  - intros rc out Hrun Hrc. apply Hgen.
    + unfold ok. rewrite Hrun. simpl. apply Z.eqb_neq, Hrc.
    + unfold failure_message. rewrite Hrun.
      destruct (Z.eqb_spec rc 0); [contradiction|reflexivity].
  - intros rc' c' Hrun. apply Hgen.
    + unfold ok. rewrite Hrun. reflexivity.
    + unfold failure_message. rewrite Hrun. reflexivity.
  - intros e Hrun Hnot. apply Hgen.
    + unfold ok. rewrite Hrun. reflexivity.
    + unfold failure_message. rewrite Hrun.
      destruct e; try reflexivity. exfalso. eapply Hnot. reflexivity.
Qed.

(** X7: the whole trace of a call that returns [True]: the start record,
    then for each dataset of the year its [Downloading] record,
    [os.makedirs], the command and its [Successfully downloaded] record,
    and the completion record last. *)
Theorem successful_download_trace d b year w u p :
  is_boundary_box d b → has_credentials w u p →
  let c := λ id, cmd b year id u p in
  (download_copernicus d year w).1 = Ok true →
  trace (download_copernicus d year w).2
  = trace w
    ++ [EvLog INFO ("Starting Copernicus data download for " +:+ str_int year)]
    ++ flat_map
         (λ id, [EvLog INFO ("Downloading dataset: " +:+ id);
                 EvMakedirs ("data/" +:+ id);
                 EvRun (c id);
                 EvLog INFO ("Successfully downloaded dataset: " +:+ id)])
         (dataset_ids year)
    ++ [EvLog INFO "Completed all Copernicus data downloads"].
Proof.
  intros Hbox Hcred c Htrue.
  destruct (download_copernicus_cases d b year w u p Hbox Hcred)
    as [(_ & Hall & _ & Hw)
       |[(pre & id & post & _ & _ & _ & Hres & _)
        |(pre & id & post & e & ds' & _ & _ & Hres & _)]];
    [|rewrite Hres in Htrue; discriminate..].
  rewrite Hw. cbn [trace]. fold c.
  rewrite (dataset_trace_all_ok c year); auto.
Qed.

(** ** Further properties of [run] *)

Lemma years_result_cons_ok u p y ys :
  year_succeeds u p y = true → years_result u p (y :: ys) = years_result u p ys.
Proof. intros H. unfold years_result. simpl. rewrite H. reflexivity. Qed.

Lemma years_result_cons_fail u p y ys :
  year_succeeds u p y = false →
  years_result u p (y :: ys)
  = Raise (Exception ("Failed to download Copernicus data for " +:+ str_int y)).
Proof. intros H. unfold years_result. simpl. rewrite H. reflexivity. Qed.

Lemma years_result_ok u p ys :
  years_result u p ys = Ok tt ↔ forallb (year_succeeds u p) ys = true.
Proof.
  induction ys as [|y ys IH]; [split; reflexivity|].
  simpl forallb. destruct (year_succeeds u p y) eqn:Hy.
  - rewrite years_result_cons_ok by exact Hy. exact IH.
  - rewrite years_result_cons_fail by exact Hy. split; discriminate.
Qed.


(** The call of [run] for one year, and the loop over the years, when
    nothing stands in the way of the directories. *)
Lemma run_year_trace u p y w :
  has_credentials w u p →
  creatable w
    (flat_map (λ id, path_chain "" (os_path_join output_directory id))
       (dataset_ids y)) →
  run_year y w
  = ((if year_succeeds u p y then Ok tt
      else Raise (Exception ("Failed to download Copernicus data for "
                             +:+ str_int y))),
     mkWorld (environ w) (dirs w ∪ list_to_set (year_dirs u p y))
       (trace w ++ year_trace u p y)).
Proof.
  intros Hcred Hfree. unfold run_year, bind.
  rewrite (download_copernicus_trace boundary_box run_bounds y w u p
             boundary_box_keys Hcred Hfree).
  cbv zeta. fold (year_succeeds u p y). fold (year_dirs u p y).
  unfold year_trace. fold (year_succeeds u p y).
  destruct (year_succeeds u p y); reflexivity.
Qed.

Lemma for_each_run_year_trace u p ys :
  ∀ w, has_credentials w u p →
  creatable w
    (flat_map
       (λ y, flat_map (λ id, path_chain "" (os_path_join output_directory id))
               (dataset_ids y))
       ys) →
  for_each ys run_year w
  = (years_result u p ys,
     mkWorld (environ w)
       (dirs w ∪ list_to_set
          (flat_map (year_dirs u p) (attempted_years (year_succeeds u p) ys)))
       (trace w
        ++ flat_map (year_trace u p) (attempted_years (year_succeeds u p) ys))).
Proof.
  induction ys as [|y ys IH]; intros w Hcred Hfree.
  - destruct w as [e ds t]. unfold for_each, ret. simpl.
    rewrite app_nil_r. do 2 f_equal. symmetry. apply (right_id_L ∅ (∪)).
  - simpl for_each. unfold bind at 1.
    rewrite (run_year_trace u p y w Hcred).
    2:{ eapply creatable_sub; [exact Hfree|]. intros q Hq.
        cbn [flat_map]. apply elem_of_app. left. exact Hq. }
    simpl attempted_years.
    destruct (year_succeeds u p y) eqn:Hy.
    + rewrite IH; [|exact Hcred|].
      2:{ eapply creatable_mono; [eapply creatable_sub; [exact Hfree|]|].
          - intros q Hq. cbn [flat_map]. apply elem_of_app. right. exact Hq.
          - cbn [dirs]. apply union_subseteq_l. }
      rewrite (years_result_cons_ok u p y ys Hy). simpl. f_equal. f_equal.
      * rewrite list_to_set_app_L. symmetry. apply (assoc_L (∪)).
      * rewrite <- app_assoc. reflexivity.
    + rewrite (years_result_cons_fail u p y ys Hy). simpl.
      rewrite !app_nil_r. reflexivity.
Qed.

Lemma run_trace u p w :
  has_credentials w u p →
  creatable w
    (flat_map
       (λ y, flat_map (λ id, path_chain "" (os_path_join output_directory id))
               (dataset_ids y))
       years) →
  run w
  = (years_result u p years,
     mkWorld (environ w)
       (dirs w ∪ list_to_set
          (flat_map (year_dirs u p)
             (attempted_years (year_succeeds u p) years)))
       (trace w
        ++ [EvLog INFO "Starting Copernicus data download module"]
        ++ flat_map (year_trace u p)
             (attempted_years (year_succeeds u p) years)
        ++ (if forallb (year_succeeds u p) years
            then [EvLog INFO "Completed Copernicus data download module"]
            else []))).
Proof.
  intros Hcred Hfree. unfold run, bind, logging_info. cbv beta iota.
  rewrite (for_each_run_year_trace u p years); [|exact Hcred|exact Hfree].
  unfold emit. cbn [environ dirs trace].
  destruct (forallb (year_succeeds u p) years) eqn:Hall.
  - rewrite (proj2 (years_result_ok u p years) Hall).
    cbn [environ dirs trace]. rewrite <- !app_assoc. reflexivity.
  - destruct (years_result u p years) as [[]|e] eqn:Hres.
    + apply years_result_ok in Hres. congruence.
    + rewrite app_nil_r, <- !app_assoc. reflexivity.
Qed.
Lemma runs_of_year_trace u p y :
  runs_of (year_trace u p y)
  = map (pair_cmd u p)
      (map (pair y)
         (attempted (λ id, exits_zero (spawn (cmd run_bounds y id u p)))
            (dataset_ids y))).
Proof.
  unfold year_trace. rewrite !runs_of_app, runs_of_dataset_traces.
  rewrite map_map. unfold pair_cmd. cbn [fst snd].
  destruct (year_succeeds u p y); simpl; rewrite app_nil_r; reflexivity.
Qed.

Lemma runs_of_year_traces u p ys :
  runs_of (flat_map (year_trace u p) ys)
  = map (pair_cmd u p)
      (flat_map
         (λ y, map (pair y)
                 (attempted (λ id, exits_zero (spawn (cmd run_bounds y id u p)))
                    (dataset_ids y)))
         ys).
Proof.
  induction ys as [|y ys IH]; [reflexivity|].
  change (flat_map (year_trace u p) (y :: ys))
    with (year_trace u p y ++ flat_map (year_trace u p) ys).
  rewrite runs_of_app, IH, runs_of_year_trace.
  cbn [flat_map]. rewrite map_app. reflexivity.
Qed.


(** The commands [run] starts with the credentials in the environment,
    when nothing stands in the way of the directories. *)
Lemma run_invocations u p w :
  has_credentials w u p →
  creatable w
    (flat_map
       (λ y, flat_map (λ id, path_chain "" (os_path_join output_directory id))
               (dataset_ids y))
       years) →
  invocations (run w).2
  = invocations w ++ map (pair_cmd u p) (reached_pairs u p years).
Proof.
  intros Hcred Hfree. rewrite (run_trace u p w Hcred Hfree). cbn [snd].
  rewrite !invocations_runs_of. cbn [trace].
  rewrite !runs_of_app, runs_of_year_traces.
  change (runs_of [EvLog INFO "Starting Copernicus data download module"])
    with (@nil (list string)).
  destruct (forallb (year_succeeds u p) years);
    cbn [app]; rewrite app_nil_r; reflexivity.
Qed.
Lemma year_succeeds_attempted u p y :
  year_succeeds u p y = true →
  attempted (λ id, exits_zero (spawn (cmd run_bounds y id u p))) (dataset_ids y)
  = dataset_ids y.
Proof.
  intros H. apply attempted_all, forallb_elem_of. exact H.
Qed.

Lemma string_length_app s t :
  String.length (s +:+ t) = (String.length s + String.length t)%nat.
Proof.
  induction s as [|a s IH]; [reflexivity|].
  change (S (String.length (s +:+ t))
          = S (String.length s + String.length t)).
  rewrite IH. reflexivity.
Qed.

Lemma string_app_inj_r t s1 s2 : s1 +:+ t = s2 +:+ t → s1 = s2.
Proof.
  revert s2. induction s1 as [|a s1 IH]; intros [|b s2] H.
  - reflexivity.
  - apply (f_equal String.length) in H.
    rewrite !string_length_app in H. simpl in H. lia.
  - apply (f_equal String.length) in H.
    rewrite !string_length_app in H. simpl in H. lia.
  - change (String a (s1 +:+ t) = String b (s2 +:+ t)) in H.
    injection H as -> H. f_equal. apply IH, H.
Qed.

Lemma str_int_inj y y' : str_int y = str_int y' → y = y'.
Proof.
  intros H. pose proof (str_int_reads_back y) as Hy.
  rewrite H, str_int_reads_back in Hy. congruence.
Qed.

(** A command tells its year and its dataset. *)
Lemma pair_cmd_inj u p yi yi' : pair_cmd u p yi = pair_cmd u p yi' → yi = yi'.
Proof.
  destruct yi as [y id], yi' as [y' id']. unfold pair_cmd. cbn [fst snd].
  intros H.
  pose proof (f_equal (λ l, l !! 2%nat) H) as Hid.
  pose proof (f_equal (λ l, l !! 16%nat) H) as Hy.
  cbv beta in Hid, Hy. unfold cmd in Hid, Hy. simpl in Hid, Hy.
  injection Hid as Hid. injection Hy as Hy.
  change (id = id') in Hid.
  unfold start_datetime in Hy. apply string_app_inj_r, str_int_inj in Hy.
  congruence.
Qed.

Lemma run_no_credentials w :
  environ w !! "CMEMS_USERNAME" = None ∨ environ w !! "CMEMS_PASSWORD" = None →
  run w
  = (Raise (Exception "Failed to download Copernicus data for 2005"),
     mkWorld (environ w) (dirs w)
       (trace w
        ++ [EvLog INFO "Starting Copernicus data download module";
            EvLog INFO "Starting Copernicus data download for 2005";
            EvLog ERROR
              "Copernicus Marine credentials not found in environment variables"])).
Proof.
  intros Hmiss. unfold run, bind at 1, logging_info at 1.
  change years with (2005%Z :: [2006; 2012; 2013; 2015; 2021]%Z).
  cbn [for_each]. unfold bind at 1 2, run_year, bind at 1.
  rewrite (download_copernicus_no_credentials boundary_box run_bounds 2005
             _ boundary_box_keys) by exact Hmiss.
  unfold emit. cbn [environ dirs trace negb].
  unfold raise. rewrite <- app_assoc. reflexivity.
Qed.

Lemma year_dataset_pairs_cmds u p ys :
  map (pair_cmd u p) (year_dataset_pairs ys)
  = flat_map (λ y, map (λ id, cmd run_bounds y id u p) (dataset_ids y)) ys.
Proof.
  unfold year_dataset_pairs.
  induction ys as [|y ys IH]; [reflexivity|].
  cbn [flat_map]. rewrite map_app, IH, map_map. reflexivity.
Qed.

Lemma year_dataset_pairs_NoDup : NoDup (year_dataset_pairs years).
Proof. apply (bool_decide_unpack _). vm_compute. exact I. Qed.

Lemma attempted_years_first_failure ok pre y post :
  (∀ y', y' ∈ pre → ok y' = true) → ok y = false →
  attempted_years ok (pre ++ y :: post) = pre ++ [y].
Proof.
  induction pre as [|x pre IH]; intros Hpre Hy; simpl.
  - rewrite Hy. reflexivity.
  - rewrite (Hpre x) by apply list_elem_of_here.
    rewrite IH; [reflexivity| |exact Hy].
    intros y' Hin. apply Hpre, list_elem_of_further, Hin.
Qed.

Lemma years_result_first_failure u p pre y post :
  (∀ y', y' ∈ pre → year_succeeds u p y' = true) →
  year_succeeds u p y = false →
  years_result u p (pre ++ y :: post)
  = Raise (Exception ("Failed to download Copernicus data for " +:+ str_int y)).
Proof.
  induction pre as [|x pre IH]; intros Hpre Hy.
  - apply years_result_cons_fail, Hy.
  - change ((x :: pre) ++ y :: post) with (x :: (pre ++ y :: post)).
    rewrite years_result_cons_ok by apply Hpre, list_elem_of_here.
    apply IH; [|exact Hy].
    intros y' Hin. apply Hpre, list_elem_of_further, Hin.
Qed.

Lemma reached_pairs_all_elem u p ys :
  (∀ y, y ∈ ys → year_succeeds u p y = true) →
  flat_map
    (λ y, map (pair y)
            (attempted (λ id, exits_zero (spawn (cmd run_bounds y id u p)))
               (dataset_ids y)))
    ys
  = year_dataset_pairs ys.
Proof.
  unfold year_dataset_pairs.
  induction ys as [|y ys IH]; intros Hall; [reflexivity|].
  cbn [flat_map].
  rewrite (year_succeeds_attempted u p y) by apply Hall, list_elem_of_here.
  rewrite IH; [reflexivity|].
  intros y' Hin. apply Hall, list_elem_of_further, Hin.
Qed.


(** *** Every path through [run] *)

Lemma invocations_emit_log l m w :
  invocations (emit (EvLog l m) w) = invocations w.
Proof.
  rewrite !invocations_runs_of. unfold emit. cbn [trace].
  rewrite runs_of_app. exact (app_nil_r _).
Qed.

Lemma dataset_dir_of_run y id :
  id ∈ dataset_ids y →
  "data/" +:+ id
  ∈ ["data";
     "data/cmems_mod_glo_phy_my_0.083deg_P1D-m";
     "data/cmems_mod_glo_bgc_my_0.25deg_P1D-m";
     "data/cmems_mod_glo_phy_myint_0.083deg_P1D-m"].
Proof.
  intros Hid. destruct (dataset_ids_cases y id Hid) as [-> | [-> | ->]].
  - do 3 apply list_elem_of_further. apply list_elem_of_here.
  - do 1 apply list_elem_of_further. apply list_elem_of_here.
  - do 2 apply list_elem_of_further. apply list_elem_of_here.
Qed.

Lemma run_chains_elem_of ys q :
  q ∈ flat_map
        (λ y, flat_map (λ id, path_chain "" (os_path_join output_directory id))
                (dataset_ids y))
        ys →
  q ∈ ["data";
       "data/cmems_mod_glo_phy_my_0.083deg_P1D-m";
       "data/cmems_mod_glo_bgc_my_0.25deg_P1D-m";
       "data/cmems_mod_glo_phy_myint_0.083deg_P1D-m"].
Proof.
  intros Hq. apply list_elem_of_In, in_flat_map in Hq as (y & _ & Hq).
  apply list_elem_of_In in Hq.
  destruct (chain_elem_of y (dataset_ids y) q) as [->|(id & Hid & ->)];
    [auto|exact Hq|apply list_elem_of_here|].
  apply (dataset_dir_of_run y), Hid.
Qed.

Lemma run_chains_all :
  list_to_set
    (flat_map
       (λ y, flat_map (λ id, path_chain "" (os_path_join output_directory id))
               (dataset_ids y))
       years)
  = (list_to_set
       ["data";
        "data/cmems_mod_glo_phy_my_0.083deg_P1D-m";
        "data/cmems_mod_glo_bgc_my_0.25deg_P1D-m";
        "data/cmems_mod_glo_phy_myint_0.083deg_P1D-m"] : gset string).
Proof. vm_compute. reflexivity. Qed.

(** What the loop of [run] leaves alone, on every path through it. *)
Lemma for_each_run_year_keeps ys :
  ∀ w,
    let r := for_each ys run_year w in
    environ r.2 = environ w
    ∧ trace w `prefix_of` trace r.2
    ∧ dirs w ⊆ dirs r.2
    ∧ dirs r.2
      ⊆ dirs w ∪ list_to_set
          ["data";
           "data/cmems_mod_glo_phy_my_0.083deg_P1D-m";
           "data/cmems_mod_glo_bgc_my_0.25deg_P1D-m";
           "data/cmems_mod_glo_phy_myint_0.083deg_P1D-m"].
Proof.
  induction ys as [|y ys IH]; intros w r; subst r.
  - cbn. split; [reflexivity|]. split; [reflexivity|].
    split; [reflexivity|apply union_subseteq_l].
  - rewrite for_each_cons_step.
    pose proof (download_copernicus_keeps boundary_box y w) as Hk.
    cbv zeta in Hk.
    destruct (download_copernicus boundary_box y w) as [res w'].
    cbn [fst snd] in Hk. destruct Hk as (He & Ht & Hd & Hn).
    assert (Hn' : dirs w'
                  ⊆ dirs w ∪ list_to_set
                      ["data";
                       "data/cmems_mod_glo_phy_my_0.083deg_P1D-m";
                       "data/cmems_mod_glo_bgc_my_0.25deg_P1D-m";
                       "data/cmems_mod_glo_phy_myint_0.083deg_P1D-m"]).
    { intros x Hx. apply Hn in Hx. apply elem_of_union in Hx as [Hx|Hx].
      - apply elem_of_union in Hx as [Hx|Hx]; apply elem_of_union;
          [left; exact Hx|right].
        apply elem_of_singleton in Hx as ->.
        apply elem_of_list_to_set, list_elem_of_here.
      - apply elem_of_union; right. apply elem_of_list_to_set in Hx.
        apply list_elem_of_fmap in Hx as (id & -> & Hid).
        apply elem_of_list_to_set, (dataset_dir_of_run y), Hid. }
    destruct res as [[|]|e]; cbn [fst snd]; [|auto..].
    specialize (IH w'). cbv zeta in IH. destruct IH as (He' & Ht' & Hd' & Hn'').
    split; [congruence|]. split; [etransitivity; eassumption|].
    split; [etransitivity; eassumption|].
    intros x Hx. apply Hn'' in Hx. apply elem_of_union in Hx as [Hx|Hx].
    + apply Hn', Hx.
    + apply elem_of_union; right; exact Hx.
Qed.

(** The commands the loop of [run] starts, on every path through it: those
    of the first downloads of the list, and of all of them when the loop
    comes to its end. *)
Lemma for_each_run_year_commands u p ys :
  ∀ w, has_credentials w u p →
    let r := for_each ys run_year w in
    ∃ ps,
      ps `prefix_of` year_dataset_pairs ys
      ∧ invocations r.2 = invocations w ++ map (pair_cmd u p) ps
      ∧ (r.1 = Ok tt →
         ps = year_dataset_pairs ys
         ∧ forallb (year_succeeds u p) ys = true
         ∧ creatable w
             (flat_map
                (λ y, flat_map
                        (λ id, path_chain "" (os_path_join output_directory id))
                        (dataset_ids y))
                ys)
         ∧ dirs r.2
           = dirs w ∪ list_to_set
               (flat_map
                  (λ y, flat_map
                          (λ id, path_chain ""
                                   (os_path_join output_directory id))
                          (dataset_ids y))
                  ys)).
Proof.
  induction ys as [|y ys IH]; intros w Hcred r; subst r.
  - exists []. split; [reflexivity|].
    split; [cbn; symmetry; apply app_nil_r|].
    intros _. split; [reflexivity|]. split; [reflexivity|]. split.
    + intros q Hq. apply elem_of_nil in Hq. contradiction.
    + cbn. symmetry. apply (right_id_L ∅ (∪)).
  - rewrite for_each_cons_step.
    pose proof (download_copernicus_cases boundary_box run_bounds y w u p
                  boundary_box_keys Hcred) as Hcases.
    cbv zeta in Hcases.
    set (c := λ id, cmd run_bounds y id u p) in Hcases.
    destruct (download_copernicus boundary_box y w) as [res w'].
    cbn [fst snd] in Hcases.
    destruct Hcases
      as [(-> & Hall & Hfree & Hw)
         |[(pre & id & post & Hsplit & Hpre & Hid & -> & ->)
          |(pre & id & post & e & ds' & Hsplit & Hpre & -> & Hmk & ->)]].
    + assert (Hcred' : has_credentials w' u p).
      { rewrite Hw. exact Hcred. }
      destruct (IH w' Hcred') as (ps & Hps & Hinv & Hok).
      exists (map (pair y) (dataset_ids y) ++ ps).
      split; [unfold year_dataset_pairs; cbn [flat_map]; apply prefix_app, Hps|].
      split.
      { rewrite Hinv, Hw, !invocations_runs_of. cbn [trace].
        rewrite (runs_of_call _ _ c) by reflexivity.
        rewrite map_app, map_map, <- app_assoc. reflexivity. }
      intros Hres. destruct (Hok Hres) as (-> & Hys & Hfree' & Hdirs).
      split; [reflexivity|]. split.
      { simpl forallb. rewrite Hys, andb_true_r.
        apply forallb_elem_of. exact Hall. }
      split.
      { intros q Hq. cbn [flat_map] in Hq. apply elem_of_app in Hq as [Hq|Hq].
        - apply Hfree, Hq.
        - destruct (Hfree' q Hq) as [Hin|Hnone]; [|right; exact Hnone].
          rewrite Hw in Hin. cbn [dirs] in Hin.
          apply elem_of_union in Hin as [Hin|Hin]; [left; exact Hin|].
          apply elem_of_list_to_set in Hin. apply Hfree, Hin. }
      rewrite Hdirs, Hw. cbn [dirs flat_map].
      rewrite list_to_set_app_L. symmetry. apply (assoc_L (∪)).
    + exists (map (pair y) (pre ++ [id])). cbn [fst snd].
      split.
      { unfold year_dataset_pairs. cbn [flat_map]. apply prefix_app_r.
        rewrite Hsplit. destruct (prefix_split_snoc pre post id) as [k Hk].
        exists (map (pair y) k). rewrite <- map_app. f_equal. exact Hk. }
      split; [|discriminate].
      rewrite !invocations_runs_of. cbn [trace].
      rewrite <- (app_nil_r (flat_map _ (pre ++ [id]))).
      rewrite (runs_of_call _ _ c) by reflexivity.
      rewrite map_map. reflexivity.
    + exists (map (pair y) pre). cbn [fst snd].
      split.
      { unfold year_dataset_pairs. cbn [flat_map]. apply prefix_app_r.
        rewrite Hsplit. destruct (prefix_split pre post id) as [k Hk].
        exists (map (pair y) k). rewrite <- map_app. f_equal. exact Hk. }
      split; [|discriminate].
      rewrite !invocations_runs_of. cbn [trace].
      rewrite (runs_of_call _ _ c) by reflexivity.
      rewrite map_map. reflexivity.
Qed.

Lemma run_result_of_loop w :
  (run w).1 = Ok tt
  ↔ (for_each years run_year
       (emit (EvLog INFO "Starting Copernicus data download module") w)).1
    = Ok tt.
Proof.
  rewrite run_unfold.
  destruct (for_each years run_year _) as [[[]|e] w']; cbn [fst];
    split; (reflexivity || discriminate).
Qed.

Lemma run_keeps w :
  environ (run w).2 = environ w
  ∧ trace w `prefix_of` trace (run w).2
  ∧ dirs w ⊆ dirs (run w).2
  ∧ dirs (run w).2
    ⊆ dirs w ∪ list_to_set
        ["data";
         "data/cmems_mod_glo_phy_my_0.083deg_P1D-m";
         "data/cmems_mod_glo_bgc_my_0.25deg_P1D-m";
         "data/cmems_mod_glo_phy_myint_0.083deg_P1D-m"].
Proof.
  rewrite run_unfold.
  pose proof (for_each_run_year_keeps years
                (emit (EvLog INFO "Starting Copernicus data download module")
                   w)) as Hk.
  cbv zeta in Hk.
  destruct (for_each years run_year _) as [res w'].
  cbn [fst snd environ dirs trace emit] in Hk.
  destruct Hk as (He & Ht & Hd & Hn).
  assert (Ht' : trace w `prefix_of` trace w').
  { etransitivity; [|exact Ht]. eexists. reflexivity. }
  destruct res as [[]|e]; cbn [snd environ dirs trace emit]; auto.
  split; [exact He|]. split; [|auto].
  etransitivity; [exact Ht'|]. eexists. reflexivity.
Qed.

Lemma run_commands u p w :
  has_credentials w u p →
  ∃ ps,
    ps `prefix_of` year_dataset_pairs years
    ∧ invocations (run w).2 = invocations w ++ map (pair_cmd u p) ps
    ∧ ((run w).1 = Ok tt →
       ps = year_dataset_pairs years
       ∧ forallb (year_succeeds u p) years = true
       ∧ creatable w
           ["data";
            "data/cmems_mod_glo_phy_my_0.083deg_P1D-m";
            "data/cmems_mod_glo_bgc_my_0.25deg_P1D-m";
            "data/cmems_mod_glo_phy_myint_0.083deg_P1D-m"]
       ∧ dirs (run w).2
         = dirs w ∪ list_to_set
             ["data";
              "data/cmems_mod_glo_phy_my_0.083deg_P1D-m";
              "data/cmems_mod_glo_bgc_my_0.25deg_P1D-m";
              "data/cmems_mod_glo_phy_myint_0.083deg_P1D-m"]).
Proof.
  intros Hcred.
  set (w0 := emit (EvLog INFO "Starting Copernicus data download module") w).
  assert (Hcred0 : has_credentials w0 u p) by exact Hcred.
  destruct (for_each_run_year_commands u p years w0 Hcred0)
    as (ps & Hps & Hinv & Hok).
  exists ps. split; [exact Hps|].
  pose proof (run_result_of_loop w) as Hres. fold w0 in Hres.
  rewrite run_unfold. fold w0.
  unfold w0 in Hinv at 2. rewrite invocations_emit_log in Hinv.
  destruct (for_each years run_year w0) as [[[]|e] w'];
    cbn [fst snd] in *.
  - split; [rewrite invocations_emit_log; exact Hinv|].
    intros _. destruct (Hok eq_refl) as (-> & Hall & Hfree & Hdirs).
    split; [reflexivity|]. split; [exact Hall|]. split.
    + intros q Hq. apply (Hfree q).
      apply (elem_of_list_to_set (C:=gset string)) in Hq.
      rewrite <- run_chains_all in Hq. apply elem_of_list_to_set in Hq.
      exact Hq.
    + cbn [dirs emit]. rewrite Hdirs, run_chains_all. reflexivity.
  - split; [exact Hinv|discriminate].
Qed.


(** X8: with the credentials in the environment, [run] returns without an
    exception exactly when the command of every dataset of every year of
    its list exits with status zero and the operating system refuses none
    of the directories [data] and [data/<dataset_id>] that are not there
    yet. *)
Theorem run_returns_iff_commands_and_directories u p w :
  has_credentials w u p →
  (run w).1 = Ok tt
  ↔ (∀ y id, y ∈ years → id ∈ dataset_ids y →
       ∃ out, spawn (cmd run_bounds y id u p) = Exited 0 out)
    ∧ creatable w
        ["data";
         "data/cmems_mod_glo_phy_my_0.083deg_P1D-m";
         "data/cmems_mod_glo_bgc_my_0.25deg_P1D-m";
         "data/cmems_mod_glo_phy_myint_0.083deg_P1D-m"].
Proof.
  intros Hcred. split.
  - intros Hok.
    destruct (run_commands u p w Hcred) as (ps & _ & _ & Hdone).
    destruct (Hdone Hok) as (_ & Hall & Hfree & _).
    split; [|exact Hfree].
    rewrite forallb_forall in Hall.
    intros y id Hy Hid. apply exits_zero_spec.
    apply list_elem_of_In, Hall in Hy. unfold year_succeeds in Hy.
    rewrite forallb_elem_of in Hy. apply Hy, Hid.
  - intros [Hall Hfree].
    rewrite (run_trace u p w Hcred).
    2:{ eapply creatable_sub; [exact Hfree|]. apply run_chains_elem_of. }
    cbn [fst]. rewrite years_result_ok, forallb_forall.
    intros y Hy. unfold year_succeeds. apply forallb_elem_of.
    intros id Hid. apply exits_zero_spec, Hall; [|exact Hid].
    apply list_elem_of_In, Hy.
Qed.
(** X9: without one of the credentials [run] stops at the first year: it raises
    the exception for 2005 after three log records, having started no
    subprocess and created no directory. *)
Theorem run_without_credentials w :
  environ w !! "CMEMS_USERNAME" = None ∨ environ w !! "CMEMS_PASSWORD" = None →
  (run w).1 = Raise (Exception "Failed to download Copernicus data for 2005")
  ∧ invocations (run w).2 = invocations w
  ∧ dirs (run w).2 = dirs w
  ∧ environ (run w).2 = environ w
  ∧ trace (run w).2
    = trace w
      ++ [EvLog INFO "Starting Copernicus data download module";
          EvLog INFO "Starting Copernicus data download for 2005";
          EvLog ERROR
            "Copernicus Marine credentials not found in environment variables"].
Proof.
  intros Hmiss. rewrite (run_no_credentials w Hmiss). cbn [fst snd].
  repeat split. destruct w as [e ds t]. cbn [trace].
  rewrite invocations_app. apply app_nil_r.
Qed.


(** X10: with the credentials in the environment and no directory refused
    by the operating system, [run] stops at the first command that does
    not exit with status zero: the exception carries the year of that
    command, and the commands started are those of all the earlier years,
    then those of the earlier datasets of that year, then that command,
    which is the last. *)
Theorem run_stops_at_first_failing_command u p w pre y post ipre id ipost :
  has_credentials w u p →
  creatable w
    ["data";
     "data/cmems_mod_glo_phy_my_0.083deg_P1D-m";
     "data/cmems_mod_glo_bgc_my_0.25deg_P1D-m";
     "data/cmems_mod_glo_phy_myint_0.083deg_P1D-m"] →
  years = pre ++ y :: post →
  dataset_ids y = ipre ++ id :: ipost →
  (∀ y' id', y' ∈ pre → id' ∈ dataset_ids y' →
             ∃ out, spawn (cmd run_bounds y' id' u p) = Exited 0 out) →
  (∀ id', id' ∈ ipre → ∃ out, spawn (cmd run_bounds y id' u p) = Exited 0 out) →
  (¬ ∃ out, spawn (cmd run_bounds y id u p) = Exited 0 out) →
  (run w).1
  = Raise (Exception ("Failed to download Copernicus data for " +:+ str_int y))
  ∧ invocations (run w).2
    = invocations w
      ++ flat_map (λ y', map (λ id', cmd run_bounds y' id' u p) (dataset_ids y'))
           pre
      ++ map (λ id', cmd run_bounds y id' u p) (ipre ++ [id]).
Proof.
  intros Hcred Hfree Hys Hids Hpre Hipre Hid.
  assert (Hfree' : creatable w
            (flat_map
               (λ y, flat_map
                       (λ id, path_chain "" (os_path_join output_directory id))
                       (dataset_ids y))
               years)).
  { eapply creatable_sub; [exact Hfree|]. apply run_chains_elem_of. }
  set (ok := λ id', exits_zero (spawn (cmd run_bounds y id' u p))).
  assert (Hpre' : ∀ y', y' ∈ pre → year_succeeds u p y' = true).
  { intros y' Hin. unfold year_succeeds. apply forallb_elem_of.
    intros id' Hin'. apply exits_zero_spec. apply Hpre; assumption. }
  assert (Hipre' : ∀ id', id' ∈ ipre → ok id' = true).
  { intros id' Hin. apply exits_zero_spec, Hipre, Hin. }
  assert (Hid' : ok id = false).
  { destruct (ok id) eqn:E; [|reflexivity].
    apply exits_zero_spec in E. contradiction. }
  assert (Hy : year_succeeds u p y = false).
  { apply not_true_is_false. intros Hall. unfold year_succeeds in Hall.
    rewrite forallb_elem_of in Hall.
    assert (Hin : id ∈ dataset_ids y).
    { rewrite Hids. apply elem_of_app. right. apply list_elem_of_here. }
    specialize (Hall id Hin). cbv beta in Hall. unfold ok in Hid'.
    rewrite Hall in Hid'. discriminate. }
  split.
  - rewrite (run_trace u p w Hcred Hfree'). cbn [fst]. rewrite Hys.
    apply years_result_first_failure; assumption.
  - rewrite (run_invocations u p w Hcred Hfree'). f_equal.
    unfold reached_pairs. rewrite Hys.
    rewrite (attempted_years_first_failure _ pre y post Hpre' Hy).
    rewrite flat_map_app, map_app.
    rewrite (reached_pairs_all_elem u p pre Hpre'), year_dataset_pairs_cmds.
    f_equal. cbn [flat_map]. rewrite app_nil_r, map_map.
    fold ok. rewrite Hids.
    rewrite (attempted_first_failure ok ipre id ipost Hipre' Hid').
    reflexivity.
Qed.

(** X11: what a run without an exception has done: the twelve [subset] commands,
    year by year in the order of the list and dataset by dataset within a
    year, and the directories [data] and [data/<dataset_id>] of the three
    datasets added to the filesystem. *)
Theorem successful_run_effects u p w :
  has_credentials w u p →
  (run w).1 = Ok tt →
  invocations (run w).2
  = invocations w
    ++ flat_map (λ y, map (λ id, cmd run_bounds y id u p) (dataset_ids y)) years
  ∧ length (invocations (run w).2) = (length (invocations w) + 12)%nat
  ∧ dirs (run w).2
    = dirs w ∪ list_to_set
        ["data";
         "data/cmems_mod_glo_phy_my_0.083deg_P1D-m";
         "data/cmems_mod_glo_bgc_my_0.25deg_P1D-m";
         "data/cmems_mod_glo_phy_myint_0.083deg_P1D-m"].
Proof.
  intros Hcred Hok.
  destruct (run_commands u p w Hcred) as (ps & _ & Hinv' & Hdone).
  destruct (Hdone Hok) as (-> & _ & _ & Hdirs).
  assert (Hinv : invocations (run w).2
                 = invocations w
                   ++ flat_map (λ y, map (λ id, cmd run_bounds y id u p)
                                       (dataset_ids y)) years).
  { rewrite Hinv', year_dataset_pairs_cmds. reflexivity. }
  split; [exact Hinv|]. split; [|exact Hdirs].
  rewrite Hinv, length_app. f_equal.
Qed.

(** X12: whatever the world, the subprocesses one [run] starts are at most
    twelve, no command is started twice, and each is a [subset] command of
    the tool: [run] never starts the [describe] query. *)
Theorem run_commands_distinct_subset w :
  ∃ cs,
    invocations (run w).2 = invocations w ++ cs
    ∧ (length cs ≤ 12)%nat
    ∧ NoDup cs
    ∧ ∀ c, c ∈ cs →
        c !! 0%nat = Some "copernicusmarine" ∧ c !! 1%nat = Some "subset".
Proof.
  destruct (environ w !! "CMEMS_USERNAME") as [u|] eqn:Hu;
    [destruct (environ w !! "CMEMS_PASSWORD") as [p|] eqn:Hp|].
  2-3: exists []; rewrite (run_no_credentials w) by auto; cbn [snd];
       destruct w as [e ds t]; cbn [trace];
       rewrite invocations_app;
       split; [reflexivity|]; split; [simpl; lia|];
       split; [apply NoDup_nil_2|];
       intros c Hc; apply elem_of_nil in Hc; contradiction.
  destruct (run_commands u p w (conj Hu Hp)) as (ps & [k Hk] & Hinv & _).
  exists (map (pair_cmd u p) ps).
  split; [exact Hinv|]. split; [|split].
  - rewrite length_map.
    change 12%nat with (length (year_dataset_pairs years)).
    rewrite Hk, length_app. lia.
  - assert (Hinj : Inj (=) (=) (pair_cmd u p)).
    { intros yi yi'. apply pair_cmd_inj. }
    apply (NoDup_fmap_2 (pair_cmd u p)).
    pose proof year_dataset_pairs_NoDup as Hnd. rewrite Hk in Hnd.
    apply NoDup_app in Hnd as [Hnd _]. exact Hnd.
  - intros c Hc. apply list_elem_of_fmap in Hc as (yi & -> & _).
    split; reflexivity.
Qed.

(** X13: what a run leaves alone, whatever the world: the environment is
    unchanged, the trace only gets longer, no directory disappears, and the
    only directories that can appear are [data] and the three dataset
    directories below it. *)
Theorem run_frame w :
  environ (run w).2 = environ w
  ∧ trace w `prefix_of` trace (run w).2
  ∧ dirs w ⊆ dirs (run w).2
  ∧ dirs (run w).2
    ⊆ dirs w ∪ list_to_set
        ["data";
         "data/cmems_mod_glo_phy_my_0.083deg_P1D-m";
         "data/cmems_mod_glo_bgc_my_0.25deg_P1D-m";
         "data/cmems_mod_glo_phy_myint_0.083deg_P1D-m"].
Proof. exact (run_keeps w). Qed.

(** ** Further properties of [dataset_has_depth] *)

(** X14: whatever comes of it, [dataset_has_depth] starts exactly one
    subprocess, the [describe] query for its dataset, and does nothing
    else: no log record, no directory, the environment unchanged. *)
Theorem dataset_has_depth_frame dataset_id w :
  (dataset_has_depth dataset_id w).2
  = mkWorld (environ w) (dirs w)
      (trace w
       ++ [EvRun ["copernicusmarine"; "describe"; "--dataset-id"; dataset_id]]).
Proof.
  unfold dataset_has_depth, bind, subprocess_run, json_loads, py_get,
    py_contains, ret, raise, emit, describe_cmd.
  destruct (spawn _) as [rc out|e]; [|reflexivity].
  destruct (rc =? 0)%Z; [|reflexivity]. cbn [cp_stdout].
  destruct (json_parse out) as [v|]; [|reflexivity].
  destruct v; try reflexivity.
  destruct (d !! "dimensions") as [v|]; [|reflexivity].
  destruct v; reflexivity.
Qed.

Lemma prefix_spec x s : String.prefix x s = true ↔ ∃ s2, s = x +:+ s2.
Proof.
  revert s. induction x as [|a x IH]; intros s.
  - split; [intros _; exists s; reflexivity|intros _; destruct s; reflexivity].
  - destruct s as [|b s].
    + split; [discriminate|]. intros [s2 H]. discriminate.
    + change (String a x +:+ ?t) with (String a (x +:+ t)).
      simpl String.prefix. destruct (ascii_dec a b) as [->|Hne].
      * rewrite IH. split; intros [s2 H]; exists s2.
        -- change (String b x +:+ s2) with (String b (x +:+ s2)). congruence.
        -- change (String b x +:+ s2) with (String b (x +:+ s2)) in H.
           congruence.
      * split; [discriminate|]. intros [s2 H].
        change (String a x +:+ s2) with (String a (x +:+ s2)) in H.
        congruence.
Qed.

Lemma str_contains_spec x s :
  str_contains x s = true ↔ ∃ s1 s2, s = s1 +:+ x +:+ s2.
Proof.
  induction s as [|b s IH].
  - change (str_contains x "") with (String.prefix x "" || false).
    rewrite orb_false_r, prefix_spec. split.
    + intros [s2 H]. exists "", s2. exact H.
    + intros (s1 & s2 & H). destruct s1 as [|a s1]; [exists s2; exact H|].
      discriminate.
  - change (str_contains x (String b s))
      with (String.prefix x (String b s) || str_contains x s).
    rewrite orb_true_iff, prefix_spec, IH. split.
    + intros [[s2 H]|(s1 & s2 & H)].
      * exists "", s2. exact H.
      * exists (String b s1), s2.
        change (String b s1 +:+ x +:+ s2) with (String b (s1 +:+ x +:+ s2)).
        congruence.
    + intros (s1 & s2 & H). destruct s1 as [|a s1].
      * left. exists s2. exact H.
      * right. exists s1, s2.
        change (String a s1 +:+ x +:+ s2) with (String a (s1 +:+ x +:+ s2)) in H.
        congruence.
Qed.

(** X15: when the output is a mapping whose [dimensions] entry is not a
    mapping, the [in] test of Python still applies: for a list the result
    is whether the string ["depth"] is one of its elements, for a string
    whether ["depth"] occurs in it, and for a number, a boolean or [null]
    a [TypeError] leaves the function. *)
Theorem dataset_has_depth_other_dimensions dataset_id w out metadata v :
  spawn (describe_cmd dataset_id) = Exited 0 out →
  json_parse out = Some (PyDict metadata) →
  metadata !! "dimensions" = Some v →
  let r := (dataset_has_depth dataset_id w).1 in
  (∀ l, v = PyList l →
        (r = Ok true ∨ r = Ok false) ∧ (r = Ok true ↔ PyStr "depth" ∈ l))
  ∧ (∀ s, v = PyStr s →
          (r = Ok true ∨ r = Ok false)
          ∧ (r = Ok true ↔ ∃ s1 s2, s = s1 +:+ "depth" +:+ s2))
  ∧ (v = PyNone ∨ (∃ b, v = PyBool b) ∨ (∃ z, v = PyInt z)
     ∨ (∃ f, v = PyFloat f) →
     ∃ msg, r = Raise (TypeError msg)).
Proof.
  intros Hrun Hparse Hdim r. subst r.
  unfold dataset_has_depth, bind, subprocess_run, json_loads, py_get,
    py_contains, ret, raise.
  rewrite Hrun. cbn [Z.eqb cp_stdout fst]. rewrite Hparse, Hdim.
  split; [|split].
  - intros l ->. cbn [fst].
    set (f := λ v, match v with
                   | PyStr s => bool_decide (s = "depth")
                   | _ => false
                   end).
    split; [destruct (existsb f l); auto|].
    split.
    + intros [= H]. apply existsb_exists in H as (x & Hin & Hx).
      destruct x; try discriminate. apply bool_decide_eq_true in Hx.
      subst. apply list_elem_of_In, Hin.
    + intros Hin. f_equal. apply existsb_exists. exists (PyStr "depth").
      split; [apply list_elem_of_In, Hin|reflexivity].
  - intros s ->. cbn [fst].
    split; [destruct (str_contains "depth" s); auto|].
    rewrite <- str_contains_spec. split; [intros [= H]; exact H|].
    intros H. rewrite H. reflexivity.
  - intros [->|[[b ->]|[[z ->]|[f ->]]]]; eexists; reflexivity.
Qed.


(** ** When the operating system refuses a directory *)

Lemma download_copernicus_data_refused d b year w u p e :
  is_boundary_box d b → has_credentials w u p →
  "data" ∉ dirs w → mkdir_refused "data" = Some e →
  ∃ id rest,
    dataset_ids year = id :: rest
    ∧ download_copernicus d year w
      = (Raise e,
         mkWorld (environ w) (dirs w)
           (trace w
            ++ [EvLog INFO ("Starting Copernicus data download for "
                            +:+ str_int year);
                EvLog INFO ("Downloading dataset: " +:+ id);
                EvMakedirs ("data/" +:+ id)])).
Proof.
  intros Hbox Hcred Hnot Href.
  rewrite (download_copernicus_loop d b year w u p Hbox Hcred).
  pose proof (dataset_output_dir year) as Hdir.
  destruct (dataset_ids year) as [|id rest] eqn:Hids.
  - exfalso. exact (dataset_ids_nonempty year Hids).
  - exists id, rest. split; [reflexivity|].
    destruct (Hdir id (list_elem_of_here id rest)) as [Hjoin Hchain].
    set (w1 := mkWorld (environ w) (dirs w)
                 (trace w ++ [EvLog INFO ("Starting Copernicus data download for "
                                          +:+ str_int year)])).
    assert (Hcred1 : has_credentials w1 u p) by exact Hcred.
    assert (Hrun : download_dataset b year id w1
                   = (Raise e,
                      mkWorld (environ w) (dirs w)
                        (trace w1 ++ [EvLog INFO ("Downloading dataset: " +:+ id);
                                      EvMakedirs ("data/" +:+ id)]))).
    { pose proof (download_dataset_cases b year id w1 u p Hcred1) as Hcases.
      cbv zeta in Hcases. rewrite Hchain, Hjoin in Hcases.
      destruct Hcases as [(e' & ds' & Hmk & Hrun)|(Hmk & _)];
        cbn [make_chain] in Hmk;
        rewrite (bool_decide_eq_false_2 _ Hnot), Href in Hmk;
        [|discriminate].
      injection Hmk as <- <-. exact Hrun. }
    cbn [for_return]. unfold bind at 1. rewrite Hrun.
    unfold w1. cbn [trace]. rewrite <- app_assoc. reflexivity.
Qed.

(** X16: [os.makedirs] is called before the [try] block, so its error is not
    turned into a returned [False].  With the boundary box and the
    credentials in place, when [data] is not there and the operating
    system refuses to create it, [download_copernicus] raises that error
    at the first dataset of the year: it has started no subprocess,
    created no directory, and logged no [ERROR] record. *)
Theorem download_copernicus_directory_refused d b year w u p e :
  is_boundary_box d b → has_credentials w u p →
  "data" ∉ dirs w → mkdir_refused "data" = Some e →
  let r := download_copernicus d year w in
  r.1 = Raise e
  ∧ invocations r.2 = invocations w
  ∧ dirs r.2 = dirs w
  ∧ error_logs r.2 = error_logs w
  ∧ ∃ id rest,
      dataset_ids year = id :: rest
      ∧ makedirs_calls r.2 = makedirs_calls w ++ ["data/" +:+ id].
Proof.
  intros Hbox Hcred Hnot Href r. subst r.
  destruct (download_copernicus_data_refused d b year w u p e
              Hbox Hcred Hnot Href) as (id & rest & Hids & ->).
  cbn [fst snd dirs].
  split; [reflexivity|].
  split. { rewrite !invocations_runs_of. cbn [trace].
           rewrite runs_of_app. exact (app_nil_r _). }
  split; [reflexivity|].
  split. { rewrite !error_logs_errors_of. cbn [trace].
           rewrite errors_of_app. exact (app_nil_r _). }
  exists id, rest. split; [exact Hids|].
  rewrite !makedirs_calls_mkdirs_of. cbn [trace].
  rewrite mkdirs_of_app. reflexivity.
Qed.

(** X17: [run] has no handler either: with the credentials in the
    environment, when [data] is not there and the operating system
    refuses to create it, the error of [os.makedirs] leaves [run] at the
    first dataset of 2005, in place of the exception that names the year.
    No subprocess was started and no directory created. *)
Theorem run_directory_refused u p w e :
  has_credentials w u p →
  "data" ∉ dirs w → mkdir_refused "data" = Some e →
  run w
  = (Raise e,
     mkWorld (environ w) (dirs w)
       (trace w
        ++ [EvLog INFO "Starting Copernicus data download module";
            EvLog INFO "Starting Copernicus data download for 2005";
            EvLog INFO
              "Downloading dataset: cmems_mod_glo_phy_my_0.083deg_P1D-m";
            EvMakedirs "data/cmems_mod_glo_phy_my_0.083deg_P1D-m"])).
Proof.
  intros Hcred Hnot Href. rewrite run_unfold.
  set (w0 := emit (EvLog INFO "Starting Copernicus data download module") w).
  assert (Hcred0 : has_credentials w0 u p) by exact Hcred.
  assert (Hnot0 : "data" ∉ dirs w0) by exact Hnot.
  destruct (download_copernicus_data_refused boundary_box run_bounds 2005
              w0 u p e boundary_box_keys Hcred0 Hnot0 Href)
    as (id & rest & Hids & Hcall).
  injection Hids as <- _.
  change years with (2005%Z :: [2006; 2012; 2013; 2015; 2021]%Z).
  rewrite for_each_cons_step, Hcall.
  unfold w0, emit. cbn [environ dirs trace]. rewrite <- app_assoc.
  reflexivity.
Qed.

End Download.


(** ** The statements at sample inputs *)

#[local] Abbreviation sample_bounds :=
  (mkBounds 24.0%float 31.0%float (-92.0)%float (-86.0)%float).

#[local] Abbreviation phy_my := "cmems_mod_glo_phy_my_0.083deg_P1D-m".
#[local] Abbreviation phy_myint := "cmems_mod_glo_phy_myint_0.083deg_P1D-m".
#[local] Abbreviation bgc := "cmems_mod_glo_bgc_my_0.25deg_P1D-m".

Lemma sample_credentials : has_credentials Sample.world "alice" "secret".
Proof. split; reflexivity. Defined.

Lemma sample_creatable ps : creatable Sample.mkdir_ok Sample.world ps.
Proof. intros q _. right. reflexivity. Defined.

Lemma sample_no_data : "data" ∉ dirs Sample.world.
Proof. apply not_elem_of_empty. Defined.

(** 2005, the tool failing on the second dataset: the call returns [False]
    after the two commands. *)
Lemma download_copernicus_true_iff_all_exit_zero_witness :
  is_boundary_box boundary_box sample_bounds
  ∧ has_credentials Sample.world "alice" "secret"
  ∧ (download_copernicus Sample.str_float Sample.str_exc Sample.spawn_bgc_fails
       Sample.mkdir_ok boundary_box 2005 Sample.world).1 = Ok false
  ∧ invocations
      (download_copernicus Sample.str_float Sample.str_exc
         Sample.spawn_bgc_fails Sample.mkdir_ok boundary_box 2005
         Sample.world).2
    = invocations Sample.world
      ++ map (λ id, cmd Sample.str_float sample_bounds 2005 id "alice" "secret")
           ([phy_my] ++ [bgc]).
Proof.
  split; [exact boundary_box_keys|]. split; [exact sample_credentials|].
  destruct (download_copernicus_true_iff_all_exit_zero
              Sample.str_float Sample.str_exc Sample.spawn_bgc_fails
              Sample.mkdir_ok boundary_box sample_bounds 2005 Sample.world
              "alice" "secret" boundary_box_keys sample_credentials)
    as (_ & _ & Hfree).
  destruct (Hfree (sample_creatable _)) as (_ & _ & Hfail).
  apply (Hfail [phy_my] bgc []).
  - reflexivity.
  - intros id' Hin. apply list_elem_of_singleton in Hin as ->.
    exists "". vm_compute. reflexivity.
  - intros [out H]. vm_compute in H. discriminate.
Defined.

(** No password in the environment: nothing is started, nothing created. *)
Lemma download_copernicus_without_credentials_witness :
  (environ Sample.world_no_password !! "CMEMS_USERNAME" = None
   ∨ environ Sample.world_no_password !! "CMEMS_PASSWORD" = None)
  ∧ invocations
      (download_copernicus Sample.str_float Sample.str_exc Sample.spawn_ok Sample.mkdir_ok
         boundary_box 2021 Sample.world_no_password).2
    = invocations Sample.world_no_password
  ∧ effects
      (download_copernicus Sample.str_float Sample.str_exc Sample.spawn_ok Sample.mkdir_ok
         boundary_box 2021 Sample.world_no_password).2
    = effects Sample.world_no_password
  ∧ dirs
      (download_copernicus Sample.str_float Sample.str_exc Sample.spawn_ok Sample.mkdir_ok
         boundary_box 2021 Sample.world_no_password).2
    = dirs Sample.world_no_password
  ∧ (∀ b, is_boundary_box boundary_box b →
          (download_copernicus Sample.str_float Sample.str_exc Sample.spawn_ok Sample.mkdir_ok
             boundary_box 2021 Sample.world_no_password).1 = Ok false).
Proof.
  assert (H : environ Sample.world_no_password !! "CMEMS_USERNAME" = None
              ∨ environ Sample.world_no_password !! "CMEMS_PASSWORD" = None).
  { right. reflexivity. }
  split; [exact H|].
  apply (download_copernicus_without_credentials
           Sample.str_float Sample.str_exc Sample.spawn_ok Sample.mkdir_ok
           boundary_box 2021 Sample.world_no_password H).
Defined.


(** 2021, the tool succeeding: the call works on the two datasets of 2021
    and starts their two commands. *)
Lemma dataset_ids_by_year_witness :
  dataset_ids 2021 = [phy_myint; bgc]
  ∧ dataset_ids 2005 = [phy_my; bgc]
  ∧ (download_copernicus Sample.str_float Sample.str_exc Sample.spawn_ok
       Sample.mkdir_ok boundary_box 2021 Sample.world).1 = Ok true
  ∧ invocations
      (download_copernicus Sample.str_float Sample.str_exc Sample.spawn_ok
         Sample.mkdir_ok boundary_box 2021 Sample.world).2
    = invocations Sample.world
      ++ map (λ id, cmd Sample.str_float sample_bounds 2021 id "alice" "secret")
           [phy_myint; bgc].
Proof.
  destruct (dataset_ids_by_year Sample.str_float Sample.str_exc
              Sample.spawn_ok Sample.mkdir_ok 2021) as (H2021 & _ & Hcall).
  destruct (dataset_ids_by_year Sample.str_float Sample.str_exc
              Sample.spawn_ok Sample.mkdir_ok 2005) as (H2005 & _).
  split; [exact H2021|]. split; [exact H2005|].
  destruct (Hcall boundary_box sample_bounds Sample.world "alice" "secret"
              boundary_box_keys sample_credentials)
    as (ids & _ & _ & _ & Hdone & Htrue).
  assert (H : (download_copernicus Sample.str_float Sample.str_exc
                 Sample.spawn_ok Sample.mkdir_ok boundary_box 2021
                 Sample.world).1 = Ok true).
  { apply Htrue; [apply sample_creatable|].
    intros id _. eexists. reflexivity. }
  split; [exact H|]. exact (proj2 (Hdone H)).
Defined.

(** 2021, the tool succeeding: the second command is the one for the
    biogeochemistry dataset. *)
Lemma depth_range_by_dataset_witness :
  invocations
    (download_copernicus Sample.str_float Sample.str_exc Sample.spawn_ok Sample.mkdir_ok
       boundary_box 2021 Sample.world).2
  = invocations Sample.world
    ++ map (λ id, cmd Sample.str_float sample_bounds 2021 id "alice" "secret")
         [phy_myint; bgc]
  ∧ cmd Sample.str_float sample_bounds 2021 bgc "alice" "secret"
    ∈ map (λ id, cmd Sample.str_float sample_bounds 2021 id "alice" "secret")
        [phy_myint; bgc]
  ∧ ∃ id v,
      cmd Sample.str_float sample_bounds 2021 bgc "alice" "secret" !! 2%nat
      = Some ("--dataset-id=" +:+ id)
      ∧ drop 24 (cmd Sample.str_float sample_bounds 2021 bgc "alice" "secret")
        = ["--minimum-depth"; v; "--maximum-depth"; v]
      ∧ (id = bgc → v = "0.5057600140571594")
      ∧ (id ≠ bgc → v = "0.49402499198913574").
Proof.
  assert (H1 : invocations
                 (download_copernicus Sample.str_float Sample.str_exc
                    Sample.spawn_ok Sample.mkdir_ok boundary_box 2021 Sample.world).2
               = invocations Sample.world
                 ++ map (λ id, cmd Sample.str_float sample_bounds 2021 id
                                 "alice" "secret") [phy_myint; bgc]).
  { vm_compute. reflexivity. }
  assert (H2 : cmd Sample.str_float sample_bounds 2021 bgc "alice" "secret"
               ∈ map (λ id, cmd Sample.str_float sample_bounds 2021 id
                               "alice" "secret") [phy_myint; bgc]).
  { simpl. apply list_elem_of_further, list_elem_of_here. }
  split; [exact H1|]. split; [exact H2|].
  exact (depth_range_by_dataset Sample.str_float Sample.str_exc Sample.spawn_ok Sample.mkdir_ok
           boundary_box 2021 Sample.world _ _ H1 H2).
Defined.

(** 2021, the tool succeeding: the window in the first command. *)
Lemma season_window_of_year_witness :
  invocations
    (download_copernicus Sample.str_float Sample.str_exc Sample.spawn_ok Sample.mkdir_ok
       boundary_box 2021 Sample.world).2
  = invocations Sample.world
    ++ map (λ id, cmd Sample.str_float sample_bounds 2021 id "alice" "secret")
         [phy_myint; bgc]
  ∧ cmd Sample.str_float sample_bounds 2021 phy_myint "alice" "secret"
    ∈ map (λ id, cmd Sample.str_float sample_bounds 2021 id "alice" "secret")
        [phy_myint; bgc]
  ∧ cmd Sample.str_float sample_bounds 2021 phy_myint "alice" "secret"
      !! 16%nat = Some "2021-08-01T00:00:00"
  ∧ cmd Sample.str_float sample_bounds 2021 phy_myint "alice" "secret"
      !! 18%nat = Some "2021-10-31T23:59:59".
Proof.
  assert (H1 : invocations
                 (download_copernicus Sample.str_float Sample.str_exc
                    Sample.spawn_ok Sample.mkdir_ok boundary_box 2021 Sample.world).2
               = invocations Sample.world
                 ++ map (λ id, cmd Sample.str_float sample_bounds 2021 id
                                 "alice" "secret") [phy_myint; bgc]).
  { vm_compute. reflexivity. }
  assert (H2 : cmd Sample.str_float sample_bounds 2021 phy_myint "alice" "secret"
               ∈ map (λ id, cmd Sample.str_float sample_bounds 2021 id
                               "alice" "secret") [phy_myint; bgc]).
  { simpl. apply list_elem_of_here. }
  split; [exact H1|]. split; [exact H2|].
  destruct (season_window_of_year Sample.str_float Sample.str_exc
              Sample.spawn_ok Sample.mkdir_ok boundary_box 2021 Sample.world _ _ H1 H2)
    as (_ & _ & Hstart & _ & Hend).
  split; [exact Hstart|exact Hend].
Defined.


(** 2005, the tool failing on the second dataset: [run] raises the
    exception for 2005 in the world the first call left. *)
Lemma run_stops_at_first_failing_year_witness :
  years = [2005; 2006; 2012; 2013; 2015; 2021]%Z
  ∧ run Sample.str_float Sample.str_exc Sample.spawn_bgc_fails Sample.mkdir_ok
      Sample.world
    = (Raise (Exception ("Failed to download Copernicus data for "
                         +:+ str_int 2005)),
       (download_copernicus Sample.str_float Sample.str_exc
          Sample.spawn_bgc_fails Sample.mkdir_ok boundary_box 2005
          (emit (EvLog INFO "Starting Copernicus data download module")
             Sample.world)).2).
Proof.
  destruct (run_stops_at_first_failing_year Sample.str_float Sample.str_exc
              Sample.spawn_bgc_fails Sample.mkdir_ok Sample.world)
    as (Hys & _ & _ & _ & Hfail & _).
  split; [exact Hys|].
  apply (Hfail [] 2005%Z [2006; 2012; 2013; 2015; 2021]%Z
           (emit (EvLog INFO "Starting Copernicus data download module")
              Sample.world)).
  - reflexivity.
  - constructor.
  - vm_compute. reflexivity.
Defined.

(** 2021 in an empty filesystem, the tool succeeding: the effects are, for
    each of the two datasets in turn, [os.makedirs] and then the documented
    command. *)
Lemma subset_command_after_makedirs_witness :
  is_boundary_box boundary_box sample_bounds
  ∧ has_credentials Sample.world "alice" "secret"
  ∧ effects
      (download_copernicus Sample.str_float Sample.str_exc Sample.spawn_ok
         Sample.mkdir_ok boundary_box 2021 Sample.world).2
    = effects Sample.world
      ++ flat_map
           (λ id, [EvMakedirs ("data/" +:+ id);
                   EvRun (documented_subset_cmd Sample.str_float
                            sample_bounds 2021 "alice" "secret" id)])
           (dataset_ids 2021)
      ++ [].
Proof.
  split; [exact boundary_box_keys|]. split; [exact sample_credentials|].
  destruct (subset_command_after_makedirs Sample.str_float Sample.str_exc
              Sample.spawn_ok Sample.mkdir_ok boundary_box sample_bounds 2021
              Sample.world "alice" "secret" boundary_box_keys
              sample_credentials)
    as (processed & tail & _ & Heff & _ & Hret & Hall & _).
  assert (H : (download_copernicus Sample.str_float Sample.str_exc
                 Sample.spawn_ok Sample.mkdir_ok boundary_box 2021
                 Sample.world).1 = Ok true).
  { vm_compute. reflexivity. }
  destruct (Hret true H) as [-> _]. rewrite (Hall H) in Heff. exact Heff.
Defined.

(** A describe output with a [depth] dimension, and one that is not JSON. *)
Lemma dataset_has_depth_spec_witness :
  (dataset_has_depth Sample.json_parse Sample.spawn_ok phy_my Sample.world).1
  = Ok true
  ∧ (dataset_has_depth Sample.json_parse Sample.spawn_garbage phy_my
       Sample.world).1
    = Raise (JSONDecodeError "<html>").
Proof.
  split.
  - destruct (dataset_has_depth_spec Sample.json_parse Sample.spawn_ok
                phy_my Sample.world) as (Hok & _).
    destruct (Hok "{'dimensions': {'depth': 1, 'time': 2}}"
                {[ "dimensions" :=
                     PyDict (<["depth" := PyInt 1]> {[ "time" := PyInt 2 ]}) ]}
                eq_refl eq_refl) as (Hdims & _).
    destruct (Hdims (<["depth" := PyInt 1]> {[ "time" := PyInt 2 ]}) eq_refl)
      as (_ & Hiff).
    apply Hiff. exists (PyInt 1). reflexivity.
  - destruct (dataset_has_depth_spec Sample.json_parse Sample.spawn_garbage
                phy_my Sample.world) as (_ & _ & _ & Hbad & _).
    apply Hbad; reflexivity.
Defined.

(** Outside the documented output of the tool: when [dimensions] is a list,
    Python's [in] looks for an element, and the function returns [True]
    for the list [["depth"]]. *)
Lemma dataset_has_depth_list_dimensions :
  (dataset_has_depth Sample.json_parse Sample.spawn_list phy_my Sample.world).1
  = Ok true.
Proof. vm_compute. reflexivity. Qed.

(** A dict without [lon_max]. *)
Lemma download_copernicus_missing_key_witness :
  "lon_max" ∈ ["lat_min"; "lat_max"; "lon_min"; "lon_max"]
  ∧ Sample.box_no_lon_max !! "lon_max" = None
  ∧ ∃ k', k' ∈ ["lat_min"; "lat_max"; "lon_min"; "lon_max"]
          ∧ Sample.box_no_lon_max !! k' = None
          ∧ download_copernicus Sample.str_float Sample.str_exc Sample.spawn_ok Sample.mkdir_ok
              Sample.box_no_lon_max 2021 Sample.world
            = (Raise (KeyError k'), Sample.world).
Proof.
  assert (Hin : "lon_max" ∈ ["lat_min"; "lat_max"; "lon_min"; "lon_max"]).
  { do 3 apply list_elem_of_further. apply list_elem_of_here. }
  assert (Hk : Sample.box_no_lon_max !! "lon_max" = None) by reflexivity.
  split; [exact Hin|]. split; [exact Hk|].
  exact (download_copernicus_missing_key Sample.str_float Sample.str_exc
           Sample.spawn_ok Sample.mkdir_ok Sample.box_no_lon_max 2021 Sample.world "lon_max"
           Hin Hk).
Defined.


(** 2005, the tool failing on the second dataset: both directories are there
    when the call returns [False]. *)
Lemma failed_download_leaves_directories_witness :
  is_boundary_box boundary_box sample_bounds
  ∧ has_credentials Sample.world "alice" "secret"
  ∧ (download_copernicus Sample.str_float Sample.str_exc Sample.spawn_bgc_fails
       Sample.mkdir_ok boundary_box 2005 Sample.world).1 = Ok false
  ∧ ∃ pre id post,
      dataset_ids 2005 = pre ++ id :: post
      ∧ (∀ id', id' ∈ pre ++ [id] →
           "data/" +:+ id'
           ∈ dirs (download_copernicus Sample.str_float Sample.str_exc
                     Sample.spawn_bgc_fails Sample.mkdir_ok boundary_box 2005
                     Sample.world).2)
      ∧ effects
          (download_copernicus Sample.str_float Sample.str_exc
             Sample.spawn_bgc_fails Sample.mkdir_ok boundary_box 2005
             Sample.world).2
        = effects Sample.world
          ++ flat_map
               (λ id', [EvMakedirs ("data/" +:+ id');
                        EvRun (cmd Sample.str_float sample_bounds 2005 id'
                                 "alice" "secret")])
               (pre ++ [id]).
Proof.
  assert (H : (download_copernicus Sample.str_float Sample.str_exc
                 Sample.spawn_bgc_fails Sample.mkdir_ok boundary_box 2005
                 Sample.world).1 = Ok false).
  { vm_compute. reflexivity. }
  split; [exact boundary_box_keys|]. split; [exact sample_credentials|].
  split; [exact H|].
  destruct (failed_download_leaves_directories
              Sample.str_float Sample.str_exc Sample.spawn_bgc_fails
              Sample.mkdir_ok boundary_box sample_bounds 2005 Sample.world
              "alice" "secret" boundary_box_keys sample_credentials H)
    as (pre & id & post & Hsplit & _ & _ & Hdirs & Heff).
  exists pre, id, post. split; [exact Hsplit|]. split; [exact Hdirs|exact Heff].
Defined.

(** ** The further properties at sample inputs *)

(** The working directory is read-only: the error of [os.makedirs] leaves
    the call. *)
Lemma download_copernicus_escaping_exceptions_witness :
  (download_copernicus Sample.str_float Sample.str_exc Sample.spawn_ok
     Sample.mkdir_data_denied boundary_box 2021 Sample.world).1
  = Raise (OSError "Permission denied: 'data'")
  ∧ ∃ id q,
      id ∈ dataset_ids 2021 ∧ q ∈ ["data"; "data/" +:+ id]
      ∧ Sample.mkdir_data_denied q = Some (OSError "Permission denied: 'data'").
Proof.
  assert (H : (download_copernicus Sample.str_float Sample.str_exc
                 Sample.spawn_ok Sample.mkdir_data_denied boundary_box 2021
                 Sample.world).1
              = Raise (OSError "Permission denied: 'data'")).
  { vm_compute. reflexivity. }
  split; [exact H|].
  destruct (download_copernicus_escaping_exceptions Sample.str_float
              Sample.str_exc Sample.spawn_ok Sample.mkdir_data_denied
              boundary_box 2021 Sample.world (OSError "Permission denied: 'data'") H)
    as [(k & _ & _ & Hk & _)|(id & q & t & Hid & Hq & _ & Hr & _)].
  - discriminate.
  - exists id, q. split; [exact Hid|]. split; [exact Hq|exact Hr].
Defined.

Lemma download_copernicus_ignores_other_keys_witness :
  (∀ k, k ∈ ["lat_min"; "lat_max"; "lon_min"; "lon_max"] →
        boundary_box !! k = Sample.box_with_fifth_key !! k)
  ∧ download_copernicus Sample.str_float Sample.str_exc Sample.spawn_ok Sample.mkdir_ok
      boundary_box 2021 Sample.world
    = download_copernicus Sample.str_float Sample.str_exc Sample.spawn_ok Sample.mkdir_ok
        Sample.box_with_fifth_key 2021 Sample.world.
Proof.
  assert (H : ∀ k, k ∈ ["lat_min"; "lat_max"; "lon_min"; "lon_max"] →
                   boundary_box !! k = Sample.box_with_fifth_key !! k).
  { intros k Hin.
    repeat (apply elem_of_cons in Hin as [->|Hin]; [reflexivity|]).
    apply elem_of_nil in Hin. contradiction. }
  split; [exact H|].
  exact (download_copernicus_ignores_other_keys Sample.str_float
           Sample.str_exc Sample.spawn_ok Sample.mkdir_ok boundary_box Sample.box_with_fifth_key
           2021 Sample.world H).
Defined.

Lemma download_copernicus_false_iff_error_logged_witness :
  is_boundary_box boundary_box sample_bounds
  ∧ ((download_copernicus Sample.str_float Sample.str_exc
        Sample.spawn_bgc_fails Sample.mkdir_ok boundary_box 2005 Sample.world).1 = Ok true →
     error_logs
       (download_copernicus Sample.str_float Sample.str_exc
          Sample.spawn_bgc_fails Sample.mkdir_ok boundary_box 2005 Sample.world).2
     = error_logs Sample.world)
  ∧ ((download_copernicus Sample.str_float Sample.str_exc
        Sample.spawn_bgc_fails Sample.mkdir_ok boundary_box 2005 Sample.world).1 = Ok false →
     ∃ m, error_logs
            (download_copernicus Sample.str_float Sample.str_exc
               Sample.spawn_bgc_fails Sample.mkdir_ok boundary_box 2005 Sample.world).2
          = error_logs Sample.world ++ [m]).
Proof.
  split; [exact boundary_box_keys|].
  exact (download_copernicus_false_iff_error_logged Sample.str_float
           Sample.str_exc Sample.spawn_bgc_fails Sample.mkdir_ok boundary_box sample_bounds
           2005 Sample.world boundary_box_keys).
Defined.


(** The tool is not installed: the record of the second handler. *)
Lemma failed_dataset_error_message_witness :
  is_boundary_box boundary_box sample_bounds
  ∧ has_credentials Sample.world "alice" "secret"
  ∧ dataset_ids 2005 = [] ++ phy_my :: [bgc]
  ∧ (download_copernicus Sample.str_float Sample.str_exc Sample.spawn_missing
       Sample.mkdir_ok boundary_box 2005 Sample.world).1 = Ok false
  ∧ error_logs
      (download_copernicus Sample.str_float Sample.str_exc Sample.spawn_missing
         Sample.mkdir_ok boundary_box 2005 Sample.world).2
    = error_logs Sample.world
      ++ ["Unexpected error downloading dataset " +:+ phy_my +:+ ": "
          +:+ Sample.str_exc
                (OSError "No such file or directory: 'copernicusmarine'")].
Proof.
  assert (H : (download_copernicus Sample.str_float Sample.str_exc
                 Sample.spawn_missing Sample.mkdir_ok boundary_box 2005
                 Sample.world).1 = Ok false).
  { vm_compute. reflexivity. }
  split; [exact boundary_box_keys|]. split; [exact sample_credentials|].
  split; [reflexivity|]. split; [exact H|].
  destruct (failed_dataset_error_message Sample.str_float Sample.str_exc
              Sample.spawn_missing Sample.mkdir_ok boundary_box sample_bounds
              2005 Sample.world "alice" "secret" [] phy_my [bgc]
              boundary_box_keys sample_credentials eq_refl)
    as (_ & _ & Hother).
  - intros id' Hin. apply elem_of_nil in Hin. contradiction.
  - exact H.
  - apply Hother; [reflexivity|]. intros rc' c'. discriminate.
Defined.

Lemma successful_download_trace_witness :
  is_boundary_box boundary_box sample_bounds
  ∧ has_credentials Sample.world "alice" "secret"
  ∧ (download_copernicus Sample.str_float Sample.str_exc Sample.spawn_ok
       Sample.mkdir_ok boundary_box 2021 Sample.world).1 = Ok true
  ∧ trace (download_copernicus Sample.str_float Sample.str_exc Sample.spawn_ok
             Sample.mkdir_ok boundary_box 2021 Sample.world).2
    = trace Sample.world
      ++ [EvLog INFO ("Starting Copernicus data download for " +:+ str_int 2021)]
      ++ flat_map
           (λ id, [EvLog INFO ("Downloading dataset: " +:+ id);
                   EvMakedirs ("data/" +:+ id);
                   EvRun (cmd Sample.str_float sample_bounds 2021 id
                            "alice" "secret");
                   EvLog INFO ("Successfully downloaded dataset: " +:+ id)])
           (dataset_ids 2021)
      ++ [EvLog INFO "Completed all Copernicus data downloads"].
Proof.
  assert (H : (download_copernicus Sample.str_float Sample.str_exc
                 Sample.spawn_ok Sample.mkdir_ok boundary_box 2021
                 Sample.world).1 = Ok true).
  { vm_compute. reflexivity. }
  split; [exact boundary_box_keys|]. split; [exact sample_credentials|].
  split; [exact H|].
  exact (successful_download_trace Sample.str_float Sample.str_exc
           Sample.spawn_ok Sample.mkdir_ok boundary_box sample_bounds 2021
           Sample.world "alice" "secret" boundary_box_keys sample_credentials
           H).
Defined.

(** The tool succeeding and every directory created: [run] returns. *)
Lemma run_returns_iff_commands_and_directories_witness :
  has_credentials Sample.world "alice" "secret"
  ∧ (run Sample.str_float Sample.str_exc Sample.spawn_ok Sample.mkdir_ok
       Sample.world).1
    = Ok tt.
Proof.
  split; [exact sample_credentials|].
  apply (run_returns_iff_commands_and_directories Sample.str_float
           Sample.str_exc Sample.spawn_ok Sample.mkdir_ok "alice" "secret"
           Sample.world sample_credentials).
  split; [|apply sample_creatable].
  intros y id _ _. eexists. reflexivity.
Defined.

Lemma run_without_credentials_witness :
  (environ Sample.world_no_password !! "CMEMS_USERNAME" = None
   ∨ environ Sample.world_no_password !! "CMEMS_PASSWORD" = None)
  ∧ (run Sample.str_float Sample.str_exc Sample.spawn_ok Sample.mkdir_ok
       Sample.world_no_password).1
    = Raise (Exception "Failed to download Copernicus data for 2005")
  ∧ invocations
      (run Sample.str_float Sample.str_exc Sample.spawn_ok Sample.mkdir_ok
         Sample.world_no_password).2
    = invocations Sample.world_no_password.
Proof.
  assert (H : environ Sample.world_no_password !! "CMEMS_USERNAME" = None
              ∨ environ Sample.world_no_password !! "CMEMS_PASSWORD" = None).
  { right. reflexivity. }
  split; [exact H|].
  destruct (run_without_credentials Sample.str_float Sample.str_exc
              Sample.spawn_ok Sample.mkdir_ok Sample.world_no_password H)
    as (Hres & Hinv & _).
  split; [exact Hres|exact Hinv].
Defined.

Lemma successful_run_effects_witness :
  has_credentials Sample.world "alice" "secret"
  ∧ (run Sample.str_float Sample.str_exc Sample.spawn_ok Sample.mkdir_ok Sample.world).1 = Ok tt
  ∧ length
      (invocations
         (run Sample.str_float Sample.str_exc Sample.spawn_ok Sample.mkdir_ok Sample.world).2)
    = (length (invocations Sample.world) + 12)%nat
  ∧ dirs (run Sample.str_float Sample.str_exc Sample.spawn_ok Sample.mkdir_ok Sample.world).2
    = dirs Sample.world
      ∪ list_to_set
          ["data";
           "data/cmems_mod_glo_phy_my_0.083deg_P1D-m";
           "data/cmems_mod_glo_bgc_my_0.25deg_P1D-m";
           "data/cmems_mod_glo_phy_myint_0.083deg_P1D-m"].
Proof.
  assert (H : (run Sample.str_float Sample.str_exc Sample.spawn_ok Sample.mkdir_ok
                 Sample.world).1 = Ok tt).
  { vm_compute. reflexivity. }
  split; [exact sample_credentials|]. split; [exact H|].
  destruct (successful_run_effects Sample.str_float Sample.str_exc
              Sample.spawn_ok Sample.mkdir_ok "alice" "secret" Sample.world
              sample_credentials H) as (_ & Hlen & Hdirs).
  split; [exact Hlen|exact Hdirs].
Defined.

Lemma dataset_has_depth_other_dimensions_witness :
  Sample.spawn_list (describe_cmd phy_my)
  = Exited 0 "{'dimensions': ['depth']}"
  ∧ Sample.json_parse "{'dimensions': ['depth']}"
    = Some (PyDict {[ "dimensions" := PyList [PyStr "depth"] ]})
  ∧ (dataset_has_depth Sample.json_parse Sample.spawn_list phy_my
       Sample.world).1 = Ok true.
Proof.
  split; [reflexivity|]. split; [reflexivity|].
  destruct (dataset_has_depth_other_dimensions Sample.json_parse
              Sample.spawn_list phy_my Sample.world
              "{'dimensions': ['depth']}"
              {[ "dimensions" := PyList [PyStr "depth"] ]}
              (PyList [PyStr "depth"]) eq_refl eq_refl eq_refl)
    as (Hlist & _).
  destruct (Hlist [PyStr "depth"] eq_refl) as (_ & Hiff).
  apply Hiff, list_elem_of_here.
Defined.


(** The tool failing on the second dataset of the first year. *)
Lemma run_stops_at_first_failing_command_witness :
  has_credentials Sample.world "alice" "secret"
  ∧ years = [] ++ 2005%Z :: [2006; 2012; 2013; 2015; 2021]%Z
  ∧ dataset_ids 2005 = [phy_my] ++ bgc :: []
  ∧ (run Sample.str_float Sample.str_exc Sample.spawn_bgc_fails Sample.mkdir_ok
       Sample.world).1
    = Raise (Exception ("Failed to download Copernicus data for "
                        +:+ str_int 2005))
  ∧ invocations
      (run Sample.str_float Sample.str_exc Sample.spawn_bgc_fails
         Sample.mkdir_ok Sample.world).2
    = invocations Sample.world
      ++ flat_map
           (λ y', map (λ id', cmd Sample.str_float run_bounds y' id'
                                "alice" "secret") (dataset_ids y'))
           []
      ++ map (λ id', cmd Sample.str_float run_bounds 2005 id' "alice" "secret")
           ([phy_my] ++ [bgc]).
Proof.
  split; [exact sample_credentials|]. split; [reflexivity|].
  split; [reflexivity|].
  apply (run_stops_at_first_failing_command Sample.str_float Sample.str_exc
           Sample.spawn_bgc_fails Sample.mkdir_ok "alice" "secret" Sample.world
           [] 2005%Z [2006; 2012; 2013; 2015; 2021]%Z [phy_my] bgc []
           sample_credentials (sample_creatable _) eq_refl eq_refl).
  - intros y' id' Hin. apply elem_of_nil in Hin. contradiction.
  - intros id' Hin. apply list_elem_of_singleton in Hin as ->.
    exists "". vm_compute. reflexivity.
  - intros [out H]. vm_compute in H. discriminate.
Defined.

(** The working directory is read-only: the call raises the error of
    [os.makedirs] and has started nothing. *)
Lemma download_copernicus_directory_refused_witness :
  is_boundary_box boundary_box sample_bounds
  ∧ has_credentials Sample.world "alice" "secret"
  ∧ ("data" ∉ dirs Sample.world)
  ∧ Sample.mkdir_data_denied "data" = Some (OSError "Permission denied: 'data'")
  ∧ (download_copernicus Sample.str_float Sample.str_exc Sample.spawn_ok
       Sample.mkdir_data_denied boundary_box 2021 Sample.world).1
    = Raise (OSError "Permission denied: 'data'")
  ∧ invocations
      (download_copernicus Sample.str_float Sample.str_exc Sample.spawn_ok
         Sample.mkdir_data_denied boundary_box 2021 Sample.world).2
    = invocations Sample.world.
Proof.
  split; [exact boundary_box_keys|]. split; [exact sample_credentials|].
  split; [exact sample_no_data|]. split; [reflexivity|].
  destruct (download_copernicus_directory_refused Sample.str_float
              Sample.str_exc Sample.spawn_ok Sample.mkdir_data_denied
              boundary_box sample_bounds 2021 Sample.world "alice" "secret"
              (OSError "Permission denied: 'data'")
              boundary_box_keys sample_credentials sample_no_data eq_refl)
    as (Hres & Hinv & _).
  split; [exact Hres|exact Hinv].
Defined.

(** The same under [run]: the error is the one of [os.makedirs], not the
    exception that names the year. *)
Lemma run_directory_refused_witness :
  has_credentials Sample.world "alice" "secret"
  ∧ ("data" ∉ dirs Sample.world)
  ∧ Sample.mkdir_data_denied "data" = Some (OSError "Permission denied: 'data'")
  ∧ (run Sample.str_float Sample.str_exc Sample.spawn_ok
       Sample.mkdir_data_denied Sample.world).1
    = Raise (OSError "Permission denied: 'data'").
Proof.
  split; [exact sample_credentials|]. split; [exact sample_no_data|].
  split; [reflexivity|].
  exact (f_equal fst
           (run_directory_refused Sample.str_float Sample.str_exc
              Sample.spawn_ok Sample.mkdir_data_denied "alice" "secret"
              Sample.world (OSError "Permission denied: 'data'")
              sample_credentials sample_no_data eq_refl)).
Defined.
